(** * Bunny REST Proxy: shutdown coordinator, publisher construction, server wiring

    A shallow embedding of [src/lifecycle.ts], [src/publisher/build-publisher.ts]
    and [src/server.ts].

    Numbers are JavaScript numbers that only ever hold small integers
    (counters); they are modelled as [Z], the retry counter as [nat].
    Calls into collaborators whose code lives elsewhere (the logger, a
    subscriber's [stop], the AMQP connection, the HTTP framework, timers) are
    recorded, in order, as [Effect]s.  An [async] function is a computation
    that can suspend at each [await]; the state of the shared [app] object it
    sees when it resumes is whatever the event loop left there. *)

From Stdlib Require Import ZArith List Ascii String Bool Arith Lia DecimalString Permutation.
From Equations Require Import Equations.
Import ListNotations.

Local Open Scope string_scope.
Local Open Scope list_scope.
Local Open Scope Z_scope.

Set Warnings "-register-all".

(** ** Data model *)

(** The two channels that the AMQP plugin opens ([useRegularChannel],
    [useConfirmChannel]). *)
Inductive Channel : Type :=
| RegularChannel
| ConfirmChannel.

(** [app.amqp]: the channel handles the plugin decorates the instance with.
    Its third member, [connection], is only ever closed; that call is the
    effect [ConnectionClose] below. *)
Record Amqp : Type := mkAmqp {
  channel : Channel;
  confirmChannel : Channel
}.

(** [PublisherContentTypes] of [config/yaml-config.types]. *)
Inductive PublisherContentTypes : Type :=
| BINARY
| JSON.

Definition Schema : Type := string.

Record PublisherConfig : Type := mkPublisherConfig {
  cfg_queueName : string;
  cfg_contentType : PublisherContentTypes;
  cfg_schema : option Schema;
  cfg_confirm : bool;
  cfg_identities : list string
}.

Record IdentityConfig : Type := mkIdentityConfig {
  identity_name : string;
  identity_token : string
}.

(** The two message parser classes; the JSON one keeps the schema it was
    constructed with. *)
Inductive MessageParser : Type :=
| BinaryMessageParser
| JSONMessageParser (schema : option Schema).

(** Modelled from the spec: the state of the [Publisher] class, whose file
    [publisher/publisher.ts] is missing: the four constructor arguments and
    the in-flight counter. *)
Record Publisher : Type := mkPublisher {
  queueName : string;
  pub_channel : Channel;
  messageParser : MessageParser;
  pub_identities : list string;
  messagesInFlight : Z
}.

(** Modelled from the spec: the state of the [Subscriber] class, whose file
    [subscriber/subscriber.ts] is missing, as far as the coordinator uses it:
    it reads the field [inFlightPushRequests] and calls the method [stop]. *)
Record Subscriber : Type := mkSubscriber {
  sub_queueName : string;
  inFlightPushRequests : Z
}.

(** The decorations that [buildApp] puts on the Fastify instance and that the
    functions below read or write. *)
Record App : Type := mkApp {
  amqp : Amqp;
  publishers : list Publisher;
  subscribers : list Subscriber;
  identities : list IdentityConfig;
  pendingShutdown : bool;
  errorShutdown : bool
}.

Definition set_pendingShutdown (b : bool) (app : App) : App :=
  {| amqp := amqp app;
     publishers := publishers app;
     subscribers := subscribers app;
     identities := identities app;
     pendingShutdown := b;
     errorShutdown := errorShutdown app |}.

Definition set_errorShutdown (b : bool) (app : App) : App :=
  {| amqp := amqp app;
     publishers := publishers app;
     subscribers := subscribers app;
     identities := identities app;
     pendingShutdown := pendingShutdown app;
     errorShutdown := b |}.

Definition set_subscribers (l : list Subscriber) (app : App) : App :=
  {| amqp := amqp app;
     publishers := publishers app;
     subscribers := l;
     identities := identities app;
     pendingShutdown := pendingShutdown app;
     errorShutdown := errorShutdown app |}.

Definition set_publishers (l : list Publisher) (app : App) : App :=
  {| amqp := amqp app;
     publishers := l;
     subscribers := subscribers app;
     identities := identities app;
     pendingShutdown := pendingShutdown app;
     errorShutdown := errorShutdown app |}.

(** ** Effects on the collaborators *)

Inductive LogLevel : Type :=
| Info
| Warn
| Fatal.

Inductive Effect : Type :=
| Log (level : LogLevel) (msg : string)      (* app.log.<level>(msg) *)
| SubscriberStop (s : Subscriber) (hard : bool) (* s.stop(hard) *)
| ConnectionClose                              (* app.amqp.connection.close() *)
| AppClose                                     (* app.close() *)
| SetTimeout (duration : Z).                   (* setTimeout(resolve, duration) *)

(** ** Asynchronous computations *)

(** How an awaited promise settles. *)
Inductive Settled : Type :=
| Fulfilled
| Failed.

(** What is left of a call: it has returned, it has thrown (the promise of an
    [async] function is rejected), or it is suspended at an [await] and goes
    on, from the then current [app], once the awaited promise settles. *)
Inductive Proc (A : Type) : Type :=
| Returned (a : A)
| Thrown
| Suspended (resume : Settled -> App -> Proc A * App * list Effect).

Arguments Returned {A} a.
Arguments Thrown {A}.
Arguments Suspended {A} resume.

(** A computation runs on the shared [app] up to its first suspension point
    and yields the rest of itself, the updated [app] and the effects it
    performed. *)
Definition Async (A : Type) : Type := App -> Proc A * App * list Effect.

Definition ret {A : Type} (a : A) : Async A :=
  fun app => (Returned a, app, []).

Fixpoint andThen {A B : Type} (p : Proc A) (k : A -> Async B) (app : App)
  : Proc B * App * list Effect :=
  match p with
  | Returned a => k a app
  | Thrown => (Thrown, app, [])
  | Suspended resume =>
      (Suspended (fun how app1 =>
                    let '(p1, app2, out1) := resume how app1 in
                    let '(q, app3, out2) := andThen p1 k app2 in
                    (q, app3, out1 ++ out2)),
       app, [])
  end.

Definition bind {A B : Type} (m : Async A) (k : A -> Async B) : Async B :=
  fun app =>
    let '(p, app1, out1) := m app in
    let '(q, app2, out2) := andThen p k app1 in
    (q, app2, out1 ++ out2).

Declare Scope async_scope.
Delimit Scope async_scope with async.
Notation "x <- m ;; k" := (bind m (fun x => k))
  (at level 61, m at next level, right associativity) : async_scope.
Notation "m ;; k" := (bind m (fun _ => k))
  (at level 61, right associativity) : async_scope.
Local Open Scope async_scope.

Definition gets {A : Type} (f : App -> A) : Async A :=
  fun app => (Returned (f app), app, []).

Definition modify (f : App -> App) : Async unit :=
  fun app => (Returned tt, f app, []).

Definition emit (e : Effect) : Async unit :=
  fun app => (Returned tt, app, [e]).

(** [await p] for a promise that may be rejected: the function goes on when
    the promise is fulfilled and throws when it is rejected. *)
Definition await : Async unit :=
  fun app =>
    (Suspended (fun how app1 =>
                  match how with
                  | Fulfilled => (Returned tt, app1, [])
                  | Failed => (Thrown, app1, [])
                  end),
     app, []).

(** [await p] for a promise that is only ever resolved. *)
Definition awaitResolved : Async unit :=
  fun app => (Suspended (fun _ app1 => (Returned tt, app1, [])), app, []).

Fixpoint forEach {A : Type} (l : list A) (f : A -> Async unit) : Async unit :=
  match l with
  | [] => ret tt
  | x :: l' => f x ;; forEach l' f
  end.

Definition log (level : LogLevel) (msg : string) : Async unit :=
  emit (Log level msg).

(** [s.stop(hard)]: the call itself; the promise it returns is awaited, or
    not, by the caller. *)
Definition stop (s : Subscriber) (hard : bool) : Async unit :=
  emit (SubscriberStop s hard).

Definition connection_close : Async unit := emit ConnectionClose.

Definition app_close : Async unit := emit AppClose.

(** Template literals print numbers in decimal. *)
Definition string_of_Z (z : Z) : string :=
  NilZero.string_of_int (Z.to_int z).

(** ** lifecycle.ts *)

Module Lifecycle.

Definition totalMessagesInFlight (publishers : list Publisher) : Z :=
  fold_left (fun inFlight publisher => inFlight + messagesInFlight publisher)
            publishers 0.

Definition subscriberDeliveriesInFlight (subscribers : list Subscriber) : Z :=
  fold_left (fun prev current => prev + inFlightPushRequests current)
            subscribers 0.

(** [sleep(duration)] awaited: the timer is set, and its promise has no way
    to be rejected. *)
Definition sleep (duration : Z) : Async unit :=
  emit (SetTimeout duration) ;; awaitResolved.

Definition stillInFlightMsg (deliveriesInFlight : Z) (retries : nat) : string :=
  ("Some subscribers are pushing messages that are still in-flight ("
     ++ string_of_Z deliveriesInFlight ++ "). Waiting 1s for retry #"
     ++ string_of_Z (Z.of_nat retries))%string.

Arguments stillInFlightMsg : simpl never.

(** The [while (retries < 5)] loop together with the two statements that
    follow it; [return] inside the loop ends the function. *)
Equations? pollLoop (retries : nat) : Async unit by wf (5 - retries)%nat lt :=
pollLoop retries with lt_dec retries 5 := {
  | left _ =>
      let retries' := S retries in
      deliveriesInFlight <- gets (fun app => subscriberDeliveriesInFlight (subscribers app)) ;;
      if deliveriesInFlight =? 0 then
        log Info "No subscriber messages delivered via in-flight requests detected. Closing the AMQP connection." ;;
        connection_close ;; await
      else
        log Warn (stillInFlightMsg deliveriesInFlight retries') ;;
        sleep 1000 ;;
        pollLoop retries'
  | right _ =>
      log Warn "Maximum number of retries exceeded. Forcefully closing the connection." ;;
      connection_close ;; await }.
Proof. clear pollLoop. change (5 - S retries < 5 - retries)%nat. lia. Qed.

Definition gracefullyHandleSubscriberShutdown : Async unit :=
  modify (set_pendingShutdown true) ;;
  error <- gets errorShutdown ;;
  if negb error then
    log Info "Cancelling all subscribers" ;;
    subs <- gets subscribers ;;
    forEach subs (fun s => stop s false) ;; await ;;
    log Info "Checking for subscribers with un-processed messages" ;;
    pollLoop 0
  else
    subs <- gets subscribers ;;
    forEach subs (fun s => stop s true).

Definition handleConnectionClose : Async unit :=
  pending <- gets pendingShutdown ;;
  if pending then
    log Info "AMQP connection was closed."
  else
    error <- gets errorShutdown ;;
    if negb error then
      modify (set_errorShutdown true) ;;
      log Fatal "AMQP connection was closed unexpectedly. BRP is shutting down" ;;
      app_close
    else ret tt.

Definition handleChannelClose (isConfirmChannel : bool) : Async unit :=
  pending <- gets pendingShutdown ;;
  if pending then
    log Info ("AMQP " ++ (if isConfirmChannel then "confirm " else "") ++ "channel was closed.")%string
  else
    error <- gets errorShutdown ;;
    if negb error then
      modify (set_errorShutdown true) ;;
      log Fatal "AMQP channel was closed unexpectedly. BRP is shutting down" ;;
      connection_close ;;
      app_close
    else ret tt.

End Lifecycle.

(** ** Running a suspended call to its end *)

(** The event loop as one suspended call sees it: [world k] tells how the
    promise awaited at suspension number [k] settles, and what the shared
    [app] holds when the call resumes (what the call itself wrote there
    included).  Any interleaving of other handlers and of subscriber activity
    is some [world]. *)
Definition World : Type := nat -> Settled * App.

Fixpoint resumeAll {A : Type} (world : World) (k : nat) (p : Proc A)
  : option A * list Effect :=
  match p with
  | Returned a => (Some a, [])
  | Thrown => (None, [])
  | Suspended resume =>
      let '(p1, _, out1) := resume (fst (world k)) (snd (world k)) in
      let '(r, out2) := resumeAll world (S k) p1 in
      (r, out1 ++ out2)
  end.

(** The result ([None] when the call throws) and all the effects of a call,
    given what it has done up to its first suspension. *)
Definition finish {A : Type} (world : World) (k : nat)
  (x : Proc A * App * list Effect) : option A * list Effect :=
  let '(p, _, out1) := x in
  let '(r, out2) := resumeAll world k p in
  (r, out1 ++ out2).

Definition effectsOf {A : Type} (m : Async A) (app : App) (world : World)
  : list Effect :=
  snd (finish world 0 (m app)).

(** What the coordinator reads at its poll after suspension [k]. *)
Definition reading (world : World) (k : nat) : Z :=
  Lifecycle.subscriberDeliveriesInFlight (subscribers (snd (world k))).

(** The sum as the spec words it, the sum of [inFlightPushRequests] over the
    subscribers, written apart from the [reduce] of the code so that the two
    can be compared. *)
Definition pushesInFlight (subscribers : list Subscriber) : Z :=
  fold_right Z.add 0 (map inFlightPushRequests subscribers).

(** A poll that finds deliveries in flight: the warning and the one second
    timer. *)
Definition waitRound (world : World) (k : nat) : list Effect :=
  [Log Warn (Lifecycle.stillInFlightMsg (reading world k) (S k));
   SetTimeout 1000].

(** The same poll, with the sum of the spec over the subscribers that
    [app] holds when the call resumes from suspension [k]. *)
Definition waitOn (world : World) (k : nat) : list Effect :=
  [Log Warn (Lifecycle.stillInFlightMsg
               (pushesInFlight (subscribers (snd (world k)))) (S k));
   SetTimeout 1000].

(** The line logged just before the connection is closed: the close follows
    a poll that found nothing in flight, [n < 5] polls having waited before
    it, or it follows the fifth wait. *)
Definition closeNote (n : nat) : Effect :=
  if (n <? 5)%nat then
    Log Info "No subscriber messages delivered via in-flight requests detected. Closing the AMQP connection."
  else
    Log Warn "Maximum number of retries exceeded. Forcefully closing the connection.".

Definition closing (n : nat) : list Effect := [closeNote n; ConnectionClose].

(** ** publisher/build-publisher.ts *)

Module BuildPublisher.

(** Modelled from the spec: the constructor [new Publisher(queueName,
    channel, messageParser, identities)] of the missing [Publisher] class; the
    in-flight counter starts at zero. *)
Definition newPublisher (queueName : string) (channel : Channel)
  (messageParser : MessageParser) (identities : list string) : Publisher :=
  mkPublisher queueName channel messageParser identities 0.

Definition buildPublisher (config : PublisherConfig) (amqp : Amqp) : Publisher :=
  let messageParser :=
    match cfg_contentType config with
    | BINARY => BinaryMessageParser
    | _ => JSONMessageParser (cfg_schema config)
    end in
  let channel :=
    if cfg_confirm config then confirmChannel amqp else channel amqp in
  newPublisher (cfg_queueName config) channel messageParser (cfg_identities config).

(** *** The publish route *)

(** What the handler reads of a request: three headers and the body. *)
Record Request : Type := mkRequest {
  req_contentType : option string;
  req_identity : option string;
  req_token : option string;
  req_body : list Byte.byte
}.

(** Modelled from the spec: the error classes, whose file is missing: the
    error kinds of the spec's section 7, each with the status code it carries. *)
Inductive ErrorKind : Type :=
| UNSUPPORTED_CONTENT_TYPE
| INVALID_PAYLOAD
| FORBIDDEN
| UNKNOWN_QUEUE
| EMPTY
| BROKER_REJECTED
| SHUTTING_DOWN
| INTERNAL.

Definition statusOf (e : ErrorKind) : Z :=
  match e with
  | UNSUPPORTED_CONTENT_TYPE => 415
  | INVALID_PAYLOAD => 400
  | FORBIDDEN => 403
  | UNKNOWN_QUEUE => 404
  | EMPTY => 423
  | BROKER_REJECTED => 502
  | SHUTTING_DOWN => 503
  | INTERNAL => 500
  end.

(** How the broker answers one publish. *)
Inductive BrokerOutcome : Type :=
| PositiveConfirm
| NegativeConfirm
| ChannelError.

Inductive Settlement (A : Type) : Type :=
| Resolves (a : A)
| Rejects (e : ErrorKind).

Arguments Resolves {A} a.
Arguments Rejects {A} e.

(** A promise that is still pending when the handler returns: how it settles
    is known only once the broker has answered. *)
Definition Promise (A : Type) : Type := BrokerOutcome -> Settlement A.

Record PublishResult : Type := mkPublishResult {
  contentLengthBytes : Z;
  confirmed : bool
}.

Section Route.

(** JSON decoding, schema validation and re-encoding are library code:
    [jsonParse schema body] is the canonical encoding of the value, if [body]
    parses and, when a schema is given, validates against it. *)
Variable jsonParse : option Schema -> list Byte.byte -> option (list Byte.byte).

(** Modelled from the spec: [parseInbound] of the two message parsers, whose
    files [message-parser/binary.ts] and [message-parser/json.ts] are
    missing. *)
Definition parseInbound (parser : MessageParser) (contentType : option string)
  (body : list Byte.byte) : list Byte.byte + ErrorKind :=
  match parser with
  | BinaryMessageParser =>
      match contentType with
      | Some ct => if String.eqb ct "application/octet-stream"
                   then inl body else inr UNSUPPORTED_CONTENT_TYPE
      | None => inr UNSUPPORTED_CONTENT_TYPE
      end
  | JSONMessageParser schema =>
      match contentType with
      | Some ct => if String.eqb ct "application/json"
                   then match jsonParse schema body with
                        | Some payload => inl payload
                        | None => inr INVALID_PAYLOAD
                        end
                   else inr UNSUPPORTED_CONTENT_TYPE
      | None => inr UNSUPPORTED_CONTENT_TYPE
      end
  end.

(** Modelled from the spec: [IdentityGuard.verifyRequest], whose file
    [auth/identity-guard.ts] is missing; [false] stands for the FORBIDDEN error
    it throws. *)
Definition verifyRequest (allowed : list string) (identities : list IdentityConfig)
  (req : Request) : bool :=
  match allowed with
  | [] => true
  | _ :: _ =>
      match req_identity req, req_token req with
      | Some name, Some token =>
          existsb (String.eqb name) allowed
          && existsb (fun i => String.eqb (identity_name i) name
                               && String.eqb (identity_token i) token)
                     identities
      | _, _ => false
      end
  end.

(** Modelled from the spec: [Publisher.sendMessage], whose file
    [publisher/publisher.ts] is missing.  The in-flight counter goes up and,
    on every exit path, down again; it is left out here. *)
Definition sendMessage (publisher : Publisher) (req : Request)
  : Promise PublishResult :=
  fun broker =>
    match parseInbound (messageParser publisher) (req_contentType req) (req_body req) with
    | inr e => Rejects e
    | inl payload =>
        let len := Z.of_nat (List.length payload) in
        match pub_channel publisher, broker with
        | ConfirmChannel, PositiveConfirm => Resolves (mkPublishResult len true)
        | ConfirmChannel, _ => Rejects BROKER_REJECTED
        | RegularChannel, ChannelError => Rejects BROKER_REJECTED
        | RegularChannel, _ => Resolves (mkPublishResult len false)
        end
    end.

(** The reply object: the status code set so far (200 on a fresh reply). *)
Record Reply : Type := mkReply { statusCode : Z }.

Definition status (code : Z) (res : Reply) : Reply := mkReply code.

(** The handler that [registerPublishers] gives to [app.post]: it returns
    with the status set and the promise of [sendMessage] still pending; when
    the guard throws, the promise of the handler itself is rejected. *)
Definition publishHandler (publisher : Publisher) (identities : list IdentityConfig)
  (req : Request) (res : Reply) : Reply * Promise PublishResult :=
  if verifyRequest (pub_identities publisher) identities req then
    let result := sendMessage publisher req in
    let res := status 201 res in
    (res, result)
  else
    (res, fun _ => Rejects FORBIDDEN).

Record Response : Type := mkResponse {
  resp_status : Z;
  resp_body : option PublishResult
}.

(** The framework's part (Fastify), once the promise returned by an async
    handler has settled: a value is sent with the status the reply holds; an
    error is sent with the error's own status code, or else with the reply's
    if that is an error status, or else with 500: a status below 400 that the
    handler had set does not survive a rejection. *)
Definition respond (res : Reply) (outcome : Settlement PublishResult) : Response :=
  match outcome with
  | Resolves payload => mkResponse (statusCode res) (Some payload)
  | Rejects e =>
      let code :=
        if 400 <=? statusOf e then statusOf e
        else if 400 <=? statusCode res then statusCode res
        else 500 in
      mkResponse code None
  end.

(** One request to [POST /publish/<queue>], from the handler to the answer. *)
Definition publishRoute (publisher : Publisher) (identities : list IdentityConfig)
  (req : Request) (broker : BrokerOutcome) : Response :=
  let '(res, promise) := publishHandler publisher identities req (mkReply 200) in
  respond res (promise broker).

(** A request that the route takes on: it passes the identity guard and the
    message parser, so that a publish is attempted. *)
Definition accepted (publisher : Publisher) (identities : list IdentityConfig)
  (req : Request) : bool :=
  verifyRequest (pub_identities publisher) identities req
  && match parseInbound (messageParser publisher) (req_contentType req) (req_body req) with
     | inl _ => true
     | inr _ => false
     end.

Record Route : Type := mkRoute {
  route_path : string;
  route_handler : Request -> Reply -> Reply * Promise PublishResult
}.

Definition registerPublishers (publishersConfig : list PublisherConfig)
  (start : App * list Route) : App * list Route :=
  fold_left
    (fun (acc : App * list Route) cfg =>
       let '(app, routes) := acc in
       let publisher := buildPublisher cfg (amqp app) in
       let app := set_publishers (publishers app ++ [publisher]) app in
       (app,
        routes ++ [mkRoute ("/publish/" ++ queueName publisher)%string
                           (publishHandler publisher (identities app))]))
    publishersConfig start.

End Route.

End BuildPublisher.

(** ** server.ts *)

Module Server.

Import Lifecycle.

Record YamlConfig : Type := mkYamlConfig {
  yaml_publishers : list PublisherConfig;
  yaml_identities : list IdentityConfig
}.

(** The AMQP plugin is registered with [useConfirmChannel] and
    [useRegularChannel] both set: two distinct channels. *)
Definition pluginAmqp : Amqp :=
  {| channel := RegularChannel; confirmChannel := ConfirmChannel |}.

(** The [app.decorate] calls of [buildApp] (and the plugin's [amqp]). *)
Definition decorate (yamlConfig : YamlConfig) : App :=
  {| amqp := pluginAmqp;
     publishers := [];
     subscribers := [];
     identities := yaml_identities yamlConfig;
     pendingShutdown := false;
     errorShutdown := false |}.

(** *** Request bodies *)

(** What a content type parser hands to [done]: an error, or the body. *)
Inductive Parsed : Type :=
| Body (body : list Byte.byte)
| ParseError (statusCode : Z).

Definition ParserFn : Type := list Byte.byte -> Parsed.

(** The framework's registry of content type parsers (Fastify): the named
    parsers, and the catch-all one that [addContentTypeParser('*', ...)]
    sets. *)
Record ContentTypeParser : Type := mkContentTypeParser {
  parserList : list (string * ParserFn);
  catchAll : option ParserFn
}.

Definition removeAllContentTypeParsers (r : ContentTypeParser) : ContentTypeParser :=
  {| parserList := []; catchAll := None |}.

Definition addContentTypeParser (contentType : string) (fn : ParserFn)
  (r : ContentTypeParser) : ContentTypeParser :=
  if String.eqb contentType "*" then
    {| parserList := parserList r; catchAll := Some fn |}
  else
    {| parserList := (contentType, fn) :: parserList r; catchAll := catchAll r |}.

Definition mentions (name contentType : string) : bool :=
  match String.index 0 name contentType with
  | Some _ => true
  | None => false
  end.

(** The parser for a request: the first named parser that the request's
    content type mentions, else the catch-all one. *)
Definition getParser (r : ContentTypeParser) (contentType : string) : option ParserFn :=
  match find (fun entry => mentions (fst entry) contentType) (parserList r) with
  | Some entry => Some (snd entry)
  | None => catchAll r
  end.

(** A POST request as the framework receives it: the three headers that it
    reads before the handler runs, and the bytes that arrive as the body. *)
Record Incoming : Type := mkIncoming {
  in_contentType : option string;
  in_contentLength : option string;
  in_transferEncoding : option string;
  in_payload : list Byte.byte
}.

(** What becomes of a request before the route handler: the handler is
    called, with [request.body] still [null] or set to what the parser gave, or
    the framework answers by itself. *)
Inductive Dispatched : Type :=
| Handled (body : option (list Byte.byte))
| Refused (statusCode : Z).

(** [fastify()] is called without [bodyLimit]: the framework's default,
    1 MiB, which [addContentTypeParser] gives to the parser. *)
Definition bodyLimit : Z := 1048576.

Definition isWhiteSpace (c : Ascii.ascii) : bool :=
  let n := Ascii.nat_of_ascii c in
  ((9 <=? n) && (n <=? 13))%nat || (n =? 32)%nat.

Definition digitOf (c : Ascii.ascii) : option Z :=
  let n := Ascii.nat_of_ascii c in
  if ((48 <=? n) && (n <=? 57))%nat then Some (Z.of_nat n - 48) else None.

Fixpoint trimStart (s : string) : string :=
  match s with
  | String c rest => if isWhiteSpace c then trimStart rest else s
  | EmptyString => s
  end.

(** The digits at the head of [s], read in base ten after [acc]. *)
Fixpoint leadingDigits (s : string) (acc : option Z) : option Z :=
  match s with
  | String c rest =>
      match digitOf c with
      | Some d =>
          leadingDigits rest
            (Some (10 * (match acc with Some a => a | None => 0 end) + d))
      | None => acc
      end
  | EmptyString => acc
  end.

(** [Number.parseInt(s, 10)]; [None] stands for [NaN]. *)
Definition parseInt (s : string) : option Z :=
  match trimStart s with
  | String "-"%char rest => option_map Z.opp (leadingDigits rest None)
  | String "+"%char rest => leadingDigits rest None
  | rest => leadingDigits rest None
  end.

(** The [contentLength] of the framework's [rawBody]: [NaN] without the
    header. *)
Definition contentLengthOf (header : option string) : option Z :=
  match header with
  | Some text => parseInt text
  | None => None
  end.

(** The framework's [rawBody], for a parser registered with [parseAs:
    'buffer']: a declared length or a body above the limit is answered 413, a
    declared length that is not the length received 400; otherwise the parser
    function gets the bytes, and what it hands to [done] goes to the handler,
    or, an error, to the client.  (The payload is the bytes as they were
    received in full; a stream that breaks off, which [rawBody] answers 400,
    is left out.) *)
Definition rawBody (limit : Z) (header : option string)
  (payload : list Byte.byte) (fn : ParserFn) : Dispatched :=
  let contentLength := contentLengthOf header in
  let receivedLength := Z.of_nat (List.length payload) in
  if match contentLength with Some n => limit <? n | None => false end then
    Refused 413
  else if limit <? receivedLength then
    Refused 413
  else if match contentLength with
          | Some n => negb (receivedLength =? n)
          | None => false
          end then
    Refused 400
  else
    match fn payload with
    | Body body => Handled (Some body)
    | ParseError statusCode => Refused statusCode
    end.

(** The framework's [ContentTypeParser.run]: without a parser for the content
    type it answers 415 itself. *)
Definition runParser (r : ContentTypeParser) (contentType : string)
  (req : Incoming) : Dispatched :=
  match getParser r contentType with
  | Some fn => rawBody bodyLimit (in_contentLength req) (in_payload req) fn
  | None => Refused 415
  end.

(** The framework's [handleRequest] for the method POST, which the publish
    routes take: a request without a Content-Type header that announces no
    body (no Transfer-Encoding, and no Content-Length or ['0']) goes to the
    handler as it is; another one without the header is looked up under the
    empty content type. *)
Definition handleRequest (r : ContentTypeParser) (req : Incoming) : Dispatched :=
  match in_contentType req with
  | None =>
      match in_transferEncoding req, in_contentLength req with
      | None, None => Handled None
      | None, Some text =>
          if String.eqb text "0" then Handled None else runParser r "" req
      | Some _, _ => runParser r "" req
      end
  | Some contentType => runParser r contentType req
  end.

(** [function (_req, body, done) { done(null, body); }] *)
Definition passThrough : ParserFn := fun body => Body body.

(** The two calls of [buildApp] on the registry it is given by the framework. *)
Definition contentTypeParsers (builtIn : ContentTypeParser) : ContentTypeParser :=
  addContentTypeParser "*" passThrough (removeAllContentTypeParsers builtIn).

Section Build.

Variable jsonParse : option Schema -> list Byte.byte -> option (list Byte.byte).

(** [buildApp], as far as the instance, its routes and its parsers go:
    decorations, parsers, then the publishers once the AMQP plugin is up.
    ([registerConsumers] and [registerSubscribers] are defined in files that
    are missing; what they leave in [app.subscribers] enters the running
    server below as [SubscriberActivity].) *)
Definition buildApp (yamlConfig : YamlConfig) (builtIn : ContentTypeParser)
  : App * list BuildPublisher.Route * ContentTypeParser :=
  let app := decorate yamlConfig in
  let parsers := contentTypeParsers builtIn in
  let '(app, routes) :=
    BuildPublisher.registerPublishers jsonParse (yaml_publishers yamlConfig) (app, []) in
  (app, routes, parsers).

End Build.

(** *** Hooks and event handlers *)

(** The handler given to [app.gracefulShutdown]. *)
Definition onShutdownSignal : Async unit :=
  log Info "Starting graceful shutdown sequence." ;;
  modify (set_pendingShutdown true).

(** The [onClose] hook.  ([shutdownMetricsServer], which it starts next to
    the coordinator, is imported from [lifecycle.ts] but not defined in it; it
    acts on the metrics server, which is outside this model.) *)
Definition onClose : Async unit := gracefullyHandleSubscriberShutdown.

(** *** The running server *)

(** The shared [app] and the calls that are suspended at an [await]. *)
Record System : Type := mkSystem {
  sys_app : App;
  sys_suspended : list (Proc unit)
}.

(** What the event loop can dispatch. *)
Inductive Event : Type :=
| ShutdownSignal                       (* SIGINT or SIGTERM *)
| ConnectionClosed                     (* 'close' on app.amqp.connection *)
| ChannelClosed (isConfirmChannel : bool) (* 'close' on one of the channels *)
| CloseHook                            (* the framework runs the onClose hook *)
| Settle (i : nat) (how : Settled)     (* the promise awaited by call [i] settles *)
| SubscriberActivity (subs : list Subscriber) (* subscriber code updates its objects *)
| PublisherActivity (pubs : list Publisher).  (* publisher code updates its objects *)

Fixpoint replaceNth {A : Type} (i : nat) (x : A) (l : list A) : list A :=
  match l, i with
  | [], _ => []
  | _ :: l', O => x :: l'
  | y :: l', S i' => y :: replaceNth i' x l'
  end.

(** Run a handler on the system; what is left of it is kept if it suspends. *)
Definition dispatch (m : Async unit) (s : System) : System * list Effect :=
  let '(p, app, out) := m (sys_app s) in
  ({| sys_app := app;
      sys_suspended := match p with
                       | Suspended _ => sys_suspended s ++ [p]
                       | _ => sys_suspended s
                       end |}, out).

Definition step (e : Event) (s : System) : System * list Effect :=
  match e with
  | ShutdownSignal => dispatch onShutdownSignal s
  | ConnectionClosed => dispatch handleConnectionClose s
  | ChannelClosed isConfirmChannel => dispatch (handleChannelClose isConfirmChannel) s
  | CloseHook => dispatch onClose s
  | Settle i how =>
      match nth_error (sys_suspended s) i with
      | Some (Suspended resume) =>
          let '(p, app, out) := resume how (sys_app s) in
          ({| sys_app := app;
              sys_suspended := replaceNth i p (sys_suspended s) |}, out)
      | _ => (s, [])
      end
  | SubscriberActivity subs =>
      ({| sys_app := set_subscribers subs (sys_app s);
          sys_suspended := sys_suspended s |}, [])
  | PublisherActivity pubs =>
      ({| sys_app := set_publishers pubs (sys_app s);
          sys_suspended := sys_suspended s |}, [])
  end.

Fixpoint run (events : list Event) (s : System) : System * list Effect :=
  match events with
  | [] => (s, [])
  | e :: events' =>
      let '(s1, out1) := step e s in
      let '(s2, out2) := run events' s1 in
      (s2, out1 ++ out2)
  end.

(** The server once [buildApp] has returned [app]: nothing is suspended. *)
Definition boot (app : App) : System :=
  {| sys_app := app; sys_suspended := [] |}.

End Server.

(** ** Invariants of the running server *)

(** A suspended call that, each time it resumes, leaves [app] as it finds
    it. *)
Inductive Inert : Proc unit -> Prop :=
| Inert_returned (a : unit) : Inert (Returned a)
| Inert_thrown : Inert Thrown
| Inert_suspended (resume : Settled -> App -> Proc unit * App * list Effect) :
    (forall how app,
        snd (fst (resume how app)) = app /\ Inert (fst (fst (resume how app)))) ->
    Inert (Suspended resume).

(** A flag that is set before is set after. *)
Definition keepsFlags (before after : App) : Prop :=
  (pendingShutdown before = true -> pendingShutdown after = true) /\
  (errorShutdown before = true -> errorShutdown after = true).

(** Nothing but, at most, one line in the log at level info. *)
Definition loggedOnly (out : list Effect) : Prop :=
  out = [] \/ exists msg, out = [Log Info msg].

(** ** Sample configurations *)

Module Samples.

Definition twoSubscribers : list Subscriber :=
  [mkSubscriber "binarytest" 2; mkSubscriber "jsontest" 0].

Definition idle : list Subscriber :=
  [mkSubscriber "binarytest" 0; mkSubscriber "jsontest" 0].

Definition app : App :=
  {| amqp := mkAmqp RegularChannel ConfirmChannel;
     publishers := [];
     subscribers := twoSubscribers;
     identities := [];
     pendingShutdown := false;
     errorShutdown := false |}.

(** The pushes in flight end during the second wait. *)
Definition drainsAfterTwoWaits : World :=
  fun k =>
    (Fulfilled,
     set_pendingShutdown true
       (if (k <? 2)%nat then app else set_subscribers idle app)).

(** The pushes in flight never end. *)
Definition neverDrains : World :=
  fun _ => (Fulfilled, set_pendingShutdown true app).

(** A confirm publisher with three publishes awaiting their confirm, and no
    subscriber at all. *)
Definition busyPublisher : Publisher :=
  mkPublisher "jsonq" ConfirmChannel (JSONMessageParser None) [] 3.

Definition publishing : App :=
  {| amqp := mkAmqp RegularChannel ConfirmChannel;
     publishers := [busyPublisher];
     subscribers := [];
     identities := [];
     pendingShutdown := false;
     errorShutdown := false |}.

Definition stillPublishing : World :=
  fun _ => (Fulfilled, set_pendingShutdown true publishing).

(** The confirm channel is lost while two pushes are in flight. *)
Definition channelLost : list Server.Event :=
  [Server.SubscriberActivity twoSubscribers; Server.ChannelClosed true].

(** A shutdown signal; the close hook runs and suspends on the stops, which
    are then fulfilled. *)
Definition signalled : list Server.Event :=
  [Server.SubscriberActivity twoSubscribers; Server.ShutdownSignal;
   Server.CloseHook; Server.Settle 0 Fulfilled].

(** The publisher [jsonq] of the test configuration, and a request to it. *)
Definition jsonq : PublisherConfig :=
  {| cfg_queueName := "jsonq";
     cfg_contentType := JSON;
     cfg_schema := Some "{}";
     cfg_confirm := true;
     cfg_identities := [] |}.

Definition anyJson : option Schema -> list Byte.byte -> option (list Byte.byte) :=
  fun _ body => Some body.

(** The app that [buildApp] makes of a configuration with that publisher. *)
Definition yaml : Server.YamlConfig :=
  {| Server.yaml_publishers := [jsonq]; Server.yaml_identities := [] |}.

Definition noParsers : Server.ContentTypeParser :=
  {| Server.parserList := []; Server.catchAll := None |}.

Definition built : App := fst (fst (Server.buildApp anyJson yaml noParsers)).



(** A publish of two bytes of CSV. *)
Definition csv : Server.Incoming :=
  {| Server.in_contentType := Some "text/csv";
     Server.in_contentLength := Some "2";
     Server.in_transferEncoding := None;
     Server.in_payload := [Byte.x61; Byte.x2c] |}.

Definition okTrue : BuildPublisher.Request :=
  {| BuildPublisher.req_contentType := Some "application/json";
     BuildPublisher.req_identity := None;
     BuildPublisher.req_token := None;
     BuildPublisher.req_body := [Byte.x7b; Byte.x7d] |}.

End Samples.

(** ** Start-up: the [onReady] hook of server.ts *)

Module Startup.

(** The calls that the hook makes on its collaborators, in order. *)
Inductive ReadyCall : Type :=
| OnConnectionClose                 (* app.amqp.connection.on('close', ...) *)
| OnConfirmChannelClose             (* app.amqp.confirmChannel.on('close', ...) *)
| OnChannelClose                    (* app.amqp.channel.on('close', ...) *)
| AssertQueue (publisher : Publisher)   (* publisher.assertQueue() *)
| Start (subscriber : Subscriber).      (* subscriber.start() *)

(** [for (const x of l) { await call(x); }]: one call after the other, each
    awaited before the next; [settles i] tells how the promise of call number
    [i] settles, and a rejected one ends the loop by throwing. *)
Fixpoint awaitEach {A : Type} (call : A -> ReadyCall) (settles : nat -> Settled)
  (i : nat) (l : list A) : list ReadyCall * Settled :=
  match l with
  | [] => ([], Fulfilled)
  | x :: l' =>
      match settles i with
      | Failed => ([call x], Failed)
      | Fulfilled =>
          let '(calls, result) := awaitEach call settles (S i) l' in
          (call x :: calls, result)
      end
  end.

(** The hook: the three listeners, then the queue assertions, then the
    starts; the calls made and how the promise of the hook settles. *)
Definition onReady (app : App) (asserted started : nat -> Settled)
  : list ReadyCall * Settled :=
  let listeners := [OnConnectionClose; OnConfirmChannelClose; OnChannelClose] in
  match awaitEach AssertQueue asserted 0 (publishers app) with
  | (calls1, Failed) => (listeners ++ calls1, Failed)
  | (calls1, Fulfilled) =>
      let '(calls2, result) := awaitEach Start started 0 (subscribers app) in
      (listeners ++ calls1 ++ calls2, result)
  end.

End Startup.

(** ** Reading a trace *)

(** The durations of the timers set, in order. *)
Definition timers (out : list Effect) : list Z :=
  flat_map (fun e => match e with SetTimeout d => [d] | _ => [] end) out.

(** The subscribers stopped, each with the argument of its [stop], in order. *)
Definition stops (out : list Effect) : list (Subscriber * bool) :=
  flat_map (fun e => match e with SubscriberStop s hard => [(s, hard)] | _ => [] end) out.

(** How many times [app.close()] is called. *)
Definition appCloses (out : list Effect) : nat :=
  List.length (flat_map (fun e => match e with AppClose => [tt] | _ => [] end) out).

(** How many times the connection is closed. *)
Definition connectionCloses (out : list Effect) : nat :=
  List.length (flat_map (fun e => match e with ConnectionClose => [tt] | _ => [] end) out).

(** A suspended call that never calls [app.close()], however it is resumed. *)
Inductive NeverClosesApp : Proc unit -> Prop :=
| NeverClosesApp_returned (a : unit) : NeverClosesApp (Returned a)
| NeverClosesApp_thrown : NeverClosesApp Thrown
| NeverClosesApp_suspended (resume : Settled -> App -> Proc unit * App * list Effect) :
    (forall how app,
        appCloses (snd (resume how app)) = 0%nat
        /\ NeverClosesApp (fst (fst (resume how app)))) ->
    NeverClosesApp (Suspended resume).

(** A suspended call that closes the connection at most [n] times in all,
    however it is resumed. *)
Inductive ClosesWithin : nat -> Proc unit -> Prop :=
| ClosesWithin_returned (n : nat) (a : unit) : ClosesWithin n (Returned a)
| ClosesWithin_thrown (n : nat) : ClosesWithin n Thrown
| ClosesWithin_suspended (n : nat)
    (resume : Settled -> App -> Proc unit * App * list Effect) :
    (forall how app,
        exists m : nat,
          (connectionCloses (snd (resume how app)) + m <= n)%nat
          /\ ClosesWithin m (fst (fst (resume how app)))) ->
    ClosesWithin n (Suspended resume).

(** How many times the framework runs the close hook. *)
Definition closeHooks (events : list Server.Event) : nat :=
  List.length
    (flat_map (fun e => match e with Server.CloseHook => [tt] | _ => [] end) events).

(** How many times the connection can still be closed by a handler that is
    yet to start, the close hook being run [hooks] more times: not at all
    once [errorShutdown] is set; by the coordinator of each close hook once
    [pendingShutdown] is set; and else by those or, once, by the handler of
    a channel. *)
Definition closesToCome (app : App) (hooks : nat) : nat :=
  if errorShutdown app then 0%nat
  else if pendingShutdown app then hooks
  else Nat.max 1 hooks.

(** The suspended calls of the server close the connection at most [k]
    times between them. *)
Definition withinBudget (k : nat) (suspended : list (Proc unit)) : Prop :=
  exists bounds : list nat,
    Forall2 ClosesWithin bounds suspended /\ (list_sum bounds <= k)%nat.

(** Counters that are not negative. *)
Definition idleOrBusy (l : list Subscriber) : Prop :=
  Forall (fun s => 0 <= inFlightPushRequests s) l.

Definition notOverdrawn (l : list Publisher) : Prop :=
  Forall (fun p => 0 <= messagesInFlight p) l.

(** ** More sample configurations *)

Module Cases.

(** No push is in flight, at the start or later, and the stops are
    rejected. *)
Definition idleApp : App := set_subscribers Samples.idle Samples.app.

Definition idleButRejected : World :=
  fun _ => (Failed, set_pendingShutdown true idleApp).

(** The stops are rejected. *)
Definition stopsRejected : World :=
  fun _ => (Failed, set_pendingShutdown true Samples.app).

(** A signal, then the loss of a channel, then the close hook. *)
Definition signalThenLoss : list Server.Event :=
  [Server.ShutdownSignal; Server.ChannelClosed false; Server.CloseHook;
   Server.ConnectionClosed].

(** The second queue assertion is rejected. *)
Definition secondFails : nat -> Settled :=
  fun i => if (i =? 1)%nat then Failed else Fulfilled.

Definition allFine : nat -> Settled := fun _ => Fulfilled.

Definition ready : App :=
  {| amqp := mkAmqp RegularChannel ConfirmChannel;
     publishers := [Samples.busyPublisher;
                    mkPublisher "binaryq" ConfirmChannel BinaryMessageParser [] 0;
                    mkPublisher "auth" ConfirmChannel BinaryMessageParser ["Bob"] 0];
     subscribers := Samples.twoSubscribers;
     identities := [];
     pendingShutdown := false;
     errorShutdown := false |}.

End Cases.

(** * Properties *)

Import Lifecycle.

(** Unfold the operations of [Async] and compute. *)
Ltac unfold_async :=
  unfold bind, gets, modify, log, stop, connection_close, app_close, sleep,
    emit, await, awaitResolved, ret; cbn.

Section PollLoop.

Variable world : World.

Lemma forEach_stop (hard : bool) (l : list Subscriber) (app : App) :
  forEach l (fun s => stop s hard) app
  = (Returned tt, app, map (fun s => SubscriberStop s hard) l).
Proof.
  induction l as [|s l IH].
  - reflexivity.
  - cbn [forEach]. unfold bind. cbn [stop emit andThen].
    rewrite IH. reflexivity.
Qed.

(** One turn of the loop, as the source writes it. *)
Lemma pollLoop_eq (r : nat) (app : App) :
  pollLoop r app
  = (if lt_dec r 5 then
       deliveriesInFlight <- gets (fun app => subscriberDeliveriesInFlight (subscribers app)) ;;
       if deliveriesInFlight =? 0 then
         log Info "No subscriber messages delivered via in-flight requests detected. Closing the AMQP connection." ;;
         connection_close ;; await
       else
         log Warn (stillInFlightMsg deliveriesInFlight (S r)) ;;
         sleep 1000 ;;
         pollLoop (S r)
     else
       log Warn "Maximum number of retries exceeded. Forcefully closing the connection." ;;
       connection_close ;; await) app.
Proof.
  rewrite pollLoop_equation_1. unfold pollLoop_unfold_clause_1.
  destruct (lt_dec r 5); reflexivity.
Qed.

Lemma pollLoop_zero (r k : nat) (app : App) :
  (r < 5)%nat ->
  subscriberDeliveriesInFlight (subscribers app) = 0 ->
  snd (finish world k (pollLoop r app)) = closing r.
Proof.
  intros Hr Hd. rewrite pollLoop_eq.
  destruct (lt_dec r 5) as [_|Hn]; [|contradiction].
  unfold closing, closeNote. apply Nat.ltb_lt in Hr. rewrite Hr.
  unfold_async. rewrite Hd. cbn.
  destruct (fst (world k)); reflexivity.
Qed.

Lemma pollLoop_wait (r k : nat) (app : App) :
  (r < 5)%nat ->
  subscriberDeliveriesInFlight (subscribers app) <> 0 ->
  snd (finish world k (pollLoop r app))
  = Log Warn (stillInFlightMsg (subscriberDeliveriesInFlight (subscribers app)) (S r))
      :: SetTimeout 1000
      :: snd (finish world (S k) (pollLoop (S r) (snd (world k)))).
Proof.
  intros Hr Hd. rewrite pollLoop_eq.
  destruct (lt_dec r 5) as [_|Hn]; [|contradiction].
  apply Z.eqb_neq in Hd.
  unfold_async. rewrite Hd. cbn.
  destruct (pollLoop (S r) (snd (world k))) as [[p a] out]. cbn.
  destruct (resumeAll world (S k) p) as [res out2]. reflexivity.
Qed.

Lemma pollLoop_exhausted (r k : nat) (app : App) :
  (5 <= r)%nat ->
  snd (finish world k (pollLoop r app)) = closing r.
Proof.
  intros Hr. rewrite pollLoop_eq.
  destruct (lt_dec r 5) as [Hn|_]; [lia|].
  unfold closing, closeNote. apply Nat.ltb_ge in Hr. rewrite Hr.
  unfold_async. destruct (fst (world k)); reflexivity.
Qed.

(** From poll number [r] on, with [budget] attempts left: [n] polls find
    deliveries in flight and wait, then the connection is closed. *)
Lemma pollLoop_rounds (budget : nat) :
  forall r : nat,
    (r + budget = 5)%nat ->
    exists n : nat,
      (n <= budget)%nat /\
      (forall j, (j < n)%nat -> reading world (r + j) <> 0) /\
      ((n < budget)%nat -> reading world (r + n) = 0) /\
      snd (finish world (S r) (pollLoop r (snd (world r))))
      = flat_map (waitRound world) (seq r n) ++ closing (r + n).
Proof.
  induction budget as [|budget IH]; intros r Hr.
  - exists 0%nat. repeat split; try lia.
    cbn [seq flat_map app]. rewrite Nat.add_0_r.
    apply pollLoop_exhausted. lia.
  - destruct (Z.eq_dec (reading world r) 0) as [Hz|Hnz].
    + exists 0%nat. repeat split; try lia.
      * intros _. rewrite Nat.add_0_r. exact Hz.
      * cbn [seq flat_map app]. rewrite Nat.add_0_r.
        apply pollLoop_zero; [lia | exact Hz].
    + destruct (IH (S r)) as (n & Hn & Hbefore & Hat & Heff); [lia|].
      exists (S n). repeat split.
      * lia.
      * intros j Hj. destruct j as [|j].
        -- rewrite Nat.add_0_r. exact Hnz.
        -- replace (r + S j)%nat with (S r + j)%nat by lia. apply Hbefore. lia.
      * intros Hlt. replace (r + S n)%nat with (S r + n)%nat by lia.
        apply Hat. lia.
      * rewrite pollLoop_wait; [|lia|exact Hnz].
        rewrite Heff. cbn [seq flat_map]. unfold waitRound at 2. cbn [app].
        replace (r + S n)%nat with (S r + n)%nat by lia. reflexivity.
Qed.

End PollLoop.

(** The effects of the graceful path once the subscribers are stopped depend
    on the polls alone. *)
Lemma pollLoop_readings (w1 w2 : World) (budget : nat) :
  (forall k, reading w1 k = reading w2 k) ->
  forall r : nat,
    (r + budget = 5)%nat ->
    snd (finish w1 (S r) (pollLoop r (snd (w1 r))))
    = snd (finish w2 (S r) (pollLoop r (snd (w2 r)))).
Proof.
  intros Hread. induction budget as [|budget IH]; intros r Hr.
  - rewrite !pollLoop_exhausted by lia. reflexivity.
  - assert (Hlt : (r < 5)%nat) by lia.
    destruct (Z.eq_dec (reading w1 r) 0) as [Hz|Hnz].
    + assert (Hz2 : reading w2 r = 0) by (rewrite <- Hread; exact Hz).
      rewrite (pollLoop_zero w1 r (S r) _ Hlt Hz).
      rewrite (pollLoop_zero w2 r (S r) _ Hlt Hz2).
      reflexivity.
    + assert (Hnz2 : reading w2 r <> 0) by (rewrite <- Hread; exact Hnz).
      rewrite (pollLoop_wait w1 r (S r) _ Hlt Hnz).
      rewrite (pollLoop_wait w2 r (S r) _ Hlt Hnz2).
      rewrite (IH (S r)) by lia.
      fold (reading w1 r). fold (reading w2 r). rewrite Hread. reflexivity.
Qed.

(** The whole call on the graceful path: the stops, then, if their promises
    are fulfilled, the polls. *)
Lemma graceful_effects (app : App) (world : World) :
  errorShutdown app = false ->
  effectsOf gracefullyHandleSubscriberShutdown app world
  = Log Info "Cancelling all subscribers"
    :: map (fun s => SubscriberStop s false) (subscribers app)
    ++ match fst (world 0%nat) with
       | Fulfilled =>
           Log Info "Checking for subscribers with un-processed messages"
           :: snd (finish world 1 (pollLoop 0 (snd (world 0%nat))))
       | Failed => []
       end.
Proof.
  intros Herr. unfold effectsOf, gracefullyHandleSubscriberShutdown.
  unfold bind at 1. cbn [modify andThen].
  unfold bind at 1. cbn [gets andThen].
  change (errorShutdown (set_pendingShutdown true app)) with (errorShutdown app).
  rewrite Herr. cbn [negb].
  unfold bind at 1. cbn [log emit andThen].
  unfold bind at 1. cbn [gets andThen].
  unfold bind at 1. rewrite forEach_stop. cbn [andThen].
  unfold bind at 1. cbn [await andThen].
  cbn [finish resumeAll List.app fst snd].
  destruct (fst (world 0%nat)).
  - cbn [andThen].
    unfold bind at 1. cbn [log emit andThen].
    destruct (pollLoop 0 (snd (world 0%nat))) as [[p a] out]. cbn.
    destruct (resumeAll world 1 p) as [res out2]. cbn.
    rewrite app_nil_r. reflexivity.
  - cbn. rewrite app_nil_r. reflexivity.
Qed.

(** Before the close: the stops, the [n] polls that waited, and the line
    that announces the close. *)
Lemma no_close_before (app : App) (world : World) (n : nat) :
  ~ In ConnectionClose
      (Log Info "Cancelling all subscribers"
       :: map (fun s => SubscriberStop s false) (subscribers app)
       ++ Log Info "Checking for subscribers with un-processed messages"
       :: flat_map (waitRound world) (seq 0 n)
       ++ [closeNote n]).
Proof.
  intros [H|H]; [discriminate H|].
  apply in_app_or in H. destruct H as [H|[H|H]].
  - apply in_map_iff in H. destruct H as (s & Hs & _). discriminate Hs.
  - discriminate H.
  - apply in_app_or in H. destruct H as [H|[H|[]]].
    + apply in_flat_map in H. destruct H as (k & _ & [H|[H|[]]]); discriminate H.
    + unfold closeNote in H. destruct (n <? 5)%nat; discriminate H.
Qed.

(** The [reduce] of the code computes the sum of the spec. *)
Lemma fold_pushes_from (l : list Subscriber) (a : Z) :
  fold_left (fun prev current => prev + inFlightPushRequests current) l a
  = a + pushesInFlight l.
Proof.
  revert a. induction l as [|s l IH]; intros a.
  - cbn. lia.
  - cbn [fold_left]. rewrite IH. unfold pushesInFlight. cbn [map fold_right]. lia.
Qed.

Lemma subscriberDeliveriesInFlight_sum (l : list Subscriber) :
  subscriberDeliveriesInFlight l = pushesInFlight l.
Proof. unfold subscriberDeliveriesInFlight. rewrite fold_pushes_from. lia. Qed.

Lemma reading_sum (world : World) (k : nat) :
  reading world k = pushesInFlight (subscribers (snd (world k))).
Proof. apply subscriberDeliveriesInFlight_sum. Qed.

Lemma waitRound_sum (world : World) (l : list nat) :
  flat_map (waitRound world) l = flat_map (waitOn world) l.
Proof.
  apply flat_map_ext. intros k. unfold waitRound, waitOn.
  rewrite reading_sum. reflexivity.
Qed.

(** The graceful path with the stops fulfilled, the sums written out. *)
Lemma graceful_polls (app : App) (world : World) :
  errorShutdown app = false ->
  fst (world 0%nat) = Fulfilled ->
  exists n : nat,
    (n <= 5)%nat /\
    (forall j, (j < n)%nat -> pushesInFlight (subscribers (snd (world j))) <> 0) /\
    ((n < 5)%nat -> pushesInFlight (subscribers (snd (world n))) = 0) /\
    let before :=
      Log Info "Cancelling all subscribers"
      :: map (fun s => SubscriberStop s false) (subscribers app)
      ++ Log Info "Checking for subscribers with un-processed messages"
      :: flat_map (waitOn world) (seq 0 n)
      ++ [closeNote n] in
    effectsOf gracefullyHandleSubscriberShutdown app world = before ++ [ConnectionClose]
    /\ ~ In ConnectionClose before.
Proof.
  intros Herr Hstops.
  destruct (pollLoop_rounds world 5 0 eq_refl) as (n & Hn & Hbefore & Hat & Heff).
  exists n. split; [exact Hn|]. split; [|split].
  - intros j Hj. rewrite <- reading_sum. apply Hbefore. exact Hj.
  - intros Hlt. rewrite <- reading_sum. apply Hat. exact Hlt.
  - cbn zeta. rewrite <- waitRound_sum. split; [|apply no_close_before].
    rewrite graceful_effects by exact Herr. rewrite Hstops, Heff.
    unfold closing. cbn [List.app].
    rewrite <- !app_assoc. cbn [List.app]. rewrite <- !app_assoc. reflexivity.
Qed.

(** The graceful path with the stops rejected: the call throws at its first
    [await]. *)
Lemma graceful_rejected (app : App) (world : World) :
  errorShutdown app = false ->
  fst (world 0%nat) = Failed ->
  finish world 0 (gracefullyHandleSubscriberShutdown app)
  = (None,
     Log Info "Cancelling all subscribers"
     :: map (fun s => SubscriberStop s false) (subscribers app)).
Proof.
  intros Herr Hstops. unfold gracefullyHandleSubscriberShutdown.
  unfold bind at 1. cbn [modify andThen].
  unfold bind at 1. cbn [gets andThen].
  change (errorShutdown (set_pendingShutdown true app)) with (errorShutdown app).
  rewrite Herr. cbn [negb].
  unfold bind at 1. cbn [log emit andThen].
  unfold bind at 1. cbn [gets andThen].
  unfold bind at 1. rewrite forEach_stop. cbn [andThen].
  unfold bind at 1. cbn [await andThen].
  cbn [finish resumeAll List.app fst snd]. rewrite Hstops.
  cbn. rewrite !app_nil_r. reflexivity.
Qed.

(** C1, as the code has it.  Graceful shutdown, [errorShutdown] being false:
    the coordinator calls [stop(false)] on every subscriber and awaits them.
    When those promises are fulfilled it polls the sum of
    [inFlightPushRequests] over the subscribers: there is a number [n <= 5] of
    polls at which that sum is not zero, each followed by a one second timer;
    the connection is closed right after them, as the last thing done and not
    before: on the first poll at which the sum is zero when [n < 5], and after
    the fifth wait when the sum was not zero at any of the five polls.  When
    one of those promises is rejected the call throws there: nothing is
    polled, no timer is set and the connection is not closed. *)
Theorem graceful_shutdown_polls_then_closes (app : App) (world : World) :
  errorShutdown app = false ->
  (fst (world 0%nat) = Fulfilled ->
   exists n : nat,
     (n <= 5)%nat /\
     (forall j, (j < n)%nat -> pushesInFlight (subscribers (snd (world j))) <> 0) /\
     ((n < 5)%nat -> pushesInFlight (subscribers (snd (world n))) = 0) /\
     let before :=
       Log Info "Cancelling all subscribers"
       :: map (fun s => SubscriberStop s false) (subscribers app)
       ++ Log Info "Checking for subscribers with un-processed messages"
       :: flat_map (waitOn world) (seq 0 n)
       ++ [closeNote n] in
     effectsOf gracefullyHandleSubscriberShutdown app world = before ++ [ConnectionClose]
     /\ ~ In ConnectionClose before)
  /\ (fst (world 0%nat) = Failed ->
      finish world 0 (gracefullyHandleSubscriberShutdown app)
      = (None,
         Log Info "Cancelling all subscribers"
         :: map (fun s => SubscriberStop s false) (subscribers app))).
Proof.
  intros Herr. split; intros Hstops.
  - apply graceful_polls; assumption.
  - apply graceful_rejected; assumption.
Qed.

(** The pushes end during the second wait: two waits, then the close. *)
Lemma graceful_shutdown_polls_then_closes_witness :
  exists n : nat,
    (n <= 5)%nat /\
    (forall j, (j < n)%nat ->
               pushesInFlight (subscribers (snd (Samples.drainsAfterTwoWaits j))) <> 0) /\
    ((n < 5)%nat ->
     pushesInFlight (subscribers (snd (Samples.drainsAfterTwoWaits n))) = 0) /\
    let before :=
      Log Info "Cancelling all subscribers"
      :: map (fun s => SubscriberStop s false) (subscribers Samples.app)
      ++ Log Info "Checking for subscribers with un-processed messages"
      :: flat_map (waitOn Samples.drainsAfterTwoWaits) (seq 0 n)
      ++ [closeNote n] in
    effectsOf gracefullyHandleSubscriberShutdown Samples.app Samples.drainsAfterTwoWaits
    = before ++ [ConnectionClose]
    /\ ~ In ConnectionClose before.
Proof.
  apply (proj1 (graceful_shutdown_polls_then_closes
                  Samples.app Samples.drainsAfterTwoWaits eq_refl)).
  reflexivity.
Defined.

(** Against C1 as the spec words it: no push is in flight at any time, so
    that every read of the sum would return zero, and [errorShutdown] is
    false; the stops are rejected, and the coordinator never closes the
    connection. *)
Lemma rejected_stops_leave_connection_open :
  errorShutdown Cases.idleApp = false
  /\ (forall k, pushesInFlight (subscribers (snd (Cases.idleButRejected k))) = 0)
  /\ finish Cases.idleButRejected 0 (gracefullyHandleSubscriberShutdown Cases.idleApp)
     = (None,
        [Log Info "Cancelling all subscribers";
         SubscriberStop (mkSubscriber "binarytest" 0) false;
         SubscriberStop (mkSubscriber "jsontest" 0) false])
  /\ ~ In ConnectionClose
         (effectsOf gracefullyHandleSubscriberShutdown Cases.idleApp Cases.idleButRejected).
Proof.
  split; [reflexivity|]. split; [intros k; reflexivity|]. split; [reflexivity|].
  cbn. intros [H|[H|[H|[]]]]; discriminate H.
Qed.

(** The whole call when [errorShutdown] is set: it returns at once. *)
Lemma graceful_hard_call (app : App) :
  errorShutdown app = true ->
  gracefullyHandleSubscriberShutdown app
  = (Returned tt, set_pendingShutdown true app,
     map (fun s => SubscriberStop s true) (subscribers app)).
Proof.
  intros Herr. unfold gracefullyHandleSubscriberShutdown.
  unfold bind at 1. cbn [modify andThen].
  unfold bind at 1. cbn [gets andThen].
  change (errorShutdown (set_pendingShutdown true app)) with (errorShutdown app).
  rewrite Herr. cbn [negb].
  unfold bind at 1. cbn [gets andThen].
  rewrite forEach_stop. reflexivity.
Qed.

(** C6. With [errorShutdown] already set the coordinator returns without
    ever suspending, having called [stop(true)] on every subscriber and done
    nothing else: no poll, no timer, no close of the connection. *)
Theorem error_shutdown_stops_hard (app : App) (world : World) :
  errorShutdown app = true ->
  gracefullyHandleSubscriberShutdown app
  = (Returned tt, set_pendingShutdown true app,
     map (fun s => SubscriberStop s true) (subscribers app))
  /\ effectsOf gracefullyHandleSubscriberShutdown app world
     = map (fun s => SubscriberStop s true) (subscribers app)
  /\ ~ In ConnectionClose (effectsOf gracefullyHandleSubscriberShutdown app world)
  /\ (forall d, ~ In (SetTimeout d) (effectsOf gracefullyHandleSubscriberShutdown app world)).
Proof.
  intros Herr.
  pose proof (graceful_hard_call app Herr) as Hcall.
  assert (Heff : effectsOf gracefullyHandleSubscriberShutdown app world
                 = map (fun s => SubscriberStop s true) (subscribers app)).
  { unfold effectsOf. rewrite Hcall. cbn. apply app_nil_r. }
  split; [exact Hcall|]. split; [exact Heff|]. rewrite Heff.
  split; [|intros d]; intros Hin; apply in_map_iff in Hin;
    destruct Hin as (s & Hs & _); discriminate Hs.
Qed.

Lemma error_shutdown_stops_hard_witness :
  gracefullyHandleSubscriberShutdown (set_errorShutdown true Samples.app)
  = (Returned tt, set_pendingShutdown true (set_errorShutdown true Samples.app),
     [SubscriberStop (mkSubscriber "binarytest" 2) true;
      SubscriberStop (mkSubscriber "jsontest" 0) true]).
Proof.
  apply (error_shutdown_stops_hard (set_errorShutdown true Samples.app)
           Samples.neverDrains).
  reflexivity.
Defined.

(** Publishes in flight are not drained: with three publishes awaiting
    their confirm, before and throughout the shutdown, the coordinator closes
    the connection at its first poll, without a single wait. *)
Lemma publishers_not_drained :
  totalMessagesInFlight (publishers Samples.publishing) = 3
  /\ totalMessagesInFlight (publishers (snd (Samples.stillPublishing 0%nat))) = 3
  /\ effectsOf gracefullyHandleSubscriberShutdown Samples.publishing Samples.stillPublishing
     = [Log Info "Cancelling all subscribers";
        Log Info "Checking for subscribers with un-processed messages";
        Log Info "No subscriber messages delivered via in-flight requests detected. Closing the AMQP connection.";
        ConnectionClose].
Proof. repeat split. Qed.

(** What the coordinator does is settled by the subscribers: by
    [app.subscribers] at the start, by how the promises of the stops settle,
    and by the sums read at the polls. *)
Lemma graceful_effects_determined (app app' : App) (world world' : World) :
  errorShutdown app = errorShutdown app' ->
  subscribers app = subscribers app' ->
  fst (world 0%nat) = fst (world' 0%nat) ->
  (forall k, reading world k = reading world' k) ->
  effectsOf gracefullyHandleSubscriberShutdown app world
  = effectsOf gracefullyHandleSubscriberShutdown app' world'.
Proof.
  intros Hflag Hsubs Hstops Hread.
  destruct (errorShutdown app) eqn:Herr; symmetry in Hflag.
  - unfold effectsOf.
    rewrite (graceful_hard_call app Herr), (graceful_hard_call app' Hflag).
    cbn. rewrite Hsubs. reflexivity.
  - rewrite (graceful_effects app world Herr), (graceful_effects app' world' Hflag).
    rewrite Hsubs, Hstops.
    destruct (fst (world' 0%nat)); [|reflexivity].
    rewrite (pollLoop_readings world world' 5 Hread 0 eq_refl). reflexivity.
Qed.

(** C3, as the code has it.  The coordinator drains the pushes of the
    subscribers and not the publishes.  What it does, and so the moment at
    which it closes the connection, is the same whatever the publishers and
    their [messagesInFlight] are, at the start and at every later poll; it is
    settled by the subscribers alone.  With [errorShutdown] false and the
    stops fulfilled, and whatever the publishes in flight, it polls the sum of
    [inFlightPushRequests] over the subscribers before it closes the
    connection: [n <= 5] polls at which that sum is not zero, each with its
    wait of one second, then the close, at the first poll at which the sum is
    zero or after the fifth wait, and not before. *)
Theorem shutdown_ignores_publishers (app app' : App) (world world' : World)
  (pubs : list Publisher) (pubsAt : nat -> list Publisher) :
  effectsOf gracefullyHandleSubscriberShutdown
    (set_publishers pubs app)
    (fun k => (fst (world k), set_publishers (pubsAt k) (snd (world k))))
  = effectsOf gracefullyHandleSubscriberShutdown app world
  /\ (errorShutdown app = errorShutdown app' ->
      subscribers app = subscribers app' ->
      fst (world 0%nat) = fst (world' 0%nat) ->
      (forall k, reading world k = reading world' k) ->
      effectsOf gracefullyHandleSubscriberShutdown app world
      = effectsOf gracefullyHandleSubscriberShutdown app' world')
  /\ (errorShutdown app = false ->
      fst (world 0%nat) = Fulfilled ->
      exists n : nat,
        (n <= 5)%nat /\
        (forall j, (j < n)%nat -> pushesInFlight (subscribers (snd (world j))) <> 0) /\
        ((n < 5)%nat -> pushesInFlight (subscribers (snd (world n))) = 0) /\
        let before :=
          Log Info "Cancelling all subscribers"
          :: map (fun s => SubscriberStop s false) (subscribers app)
          ++ Log Info "Checking for subscribers with un-processed messages"
          :: flat_map (waitOn world) (seq 0 n)
          ++ [closeNote n] in
        effectsOf gracefullyHandleSubscriberShutdown
          (set_publishers pubs app)
          (fun k => (fst (world k), set_publishers (pubsAt k) (snd (world k))))
        = before ++ [ConnectionClose]
        /\ ~ In ConnectionClose before).
Proof.
  assert (Hsame : effectsOf gracefullyHandleSubscriberShutdown
                    (set_publishers pubs app)
                    (fun k => (fst (world k), set_publishers (pubsAt k) (snd (world k))))
                  = effectsOf gracefullyHandleSubscriberShutdown app world).
  { apply graceful_effects_determined; reflexivity. }
  split; [exact Hsame|]. split.
  - apply graceful_effects_determined.
  - intros Herr Hstops. rewrite Hsame. apply graceful_polls; assumption.
Qed.

(** Three publishes in flight throughout, two pushes that end during the
    second wait: the coordinator waits twice, for the pushes. *)
Lemma shutdown_ignores_publishers_witness :
  exists n : nat,
    (n <= 5)%nat /\
    (forall j, (j < n)%nat ->
               pushesInFlight (subscribers (snd (Samples.drainsAfterTwoWaits j))) <> 0) /\
    ((n < 5)%nat ->
     pushesInFlight (subscribers (snd (Samples.drainsAfterTwoWaits n))) = 0) /\
    let before :=
      Log Info "Cancelling all subscribers"
      :: map (fun s => SubscriberStop s false) (subscribers Samples.app)
      ++ Log Info "Checking for subscribers with un-processed messages"
      :: flat_map (waitOn Samples.drainsAfterTwoWaits) (seq 0 n)
      ++ [closeNote n] in
    effectsOf gracefullyHandleSubscriberShutdown
      (set_publishers [Samples.busyPublisher] Samples.app)
      (fun k => (fst (Samples.drainsAfterTwoWaits k),
                 set_publishers [Samples.busyPublisher]
                   (snd (Samples.drainsAfterTwoWaits k))))
    = before ++ [ConnectionClose]
    /\ ~ In ConnectionClose before.
Proof.
  apply (proj2 (proj2 (shutdown_ignores_publishers
                         Samples.app Samples.app
                         Samples.drainsAfterTwoWaits Samples.drainsAfterTwoWaits
                         [Samples.busyPublisher] (fun _ => [Samples.busyPublisher]))));
    reflexivity.
Defined.

(** ** Publishers *)

Import BuildPublisher.

Lemma registerPublishers_fold (jsonParse : option Schema -> list Byte.byte -> option (list Byte.byte))
  (configs : list PublisherConfig) :
  forall (app : App) (routes : list Route),
    registerPublishers jsonParse configs (app, routes)
    = (set_publishers
         (publishers app ++ map (fun cfg => buildPublisher cfg (amqp app)) configs) app,
       routes ++ map (fun cfg =>
                        let publisher := buildPublisher cfg (amqp app) in
                        mkRoute ("/publish/" ++ queueName publisher)%string
                                (publishHandler jsonParse publisher (identities app)))
                     configs).
Proof.
  unfold registerPublishers.
  induction configs as [|cfg configs IH]; intros app routes.
  - cbn. rewrite !app_nil_r. destruct app; reflexivity.
  - cbn [fold_left map]. rewrite IH. cbn [amqp publishers identities set_publishers].
    rewrite <- !app_assoc. reflexivity.
Qed.

(** C8. [buildPublisher] binds the publisher to the confirm channel when
    [config.confirm] is set and to the regular channel otherwise, and gives it
    the binary parser when [config.contentType] is BINARY and otherwise a JSON
    parser made with [config.schema].  Both are settled when the publisher is
    built: [registerPublishers] builds one publisher per configuration and
    hands that same publisher to the route handler of its queue. *)
Theorem buildPublisher_channel_and_parser
  (jsonParse : option Schema -> list Byte.byte -> option (list Byte.byte))
  (config : PublisherConfig) (handles : Amqp) (app : App) (configs : list PublisherConfig) :
  pub_channel (buildPublisher config handles)
  = (if cfg_confirm config then confirmChannel handles else channel handles)
  /\ (pub_channel (buildPublisher config Server.pluginAmqp) = ConfirmChannel
      <-> cfg_confirm config = true)
  /\ (pub_channel (buildPublisher config Server.pluginAmqp) = RegularChannel
      <-> cfg_confirm config = false)
  /\ messageParser (buildPublisher config handles)
     = match cfg_contentType config with
       | BINARY => BinaryMessageParser
       | JSON => JSONMessageParser (cfg_schema config)
       end
  /\ (messageParser (buildPublisher config handles) = BinaryMessageParser
      <-> cfg_contentType config = BINARY)
  /\ queueName (buildPublisher config handles) = cfg_queueName config
  /\ pub_identities (buildPublisher config handles) = cfg_identities config
  /\ map route_handler (snd (registerPublishers jsonParse configs (app, [])))
     = map (fun cfg => publishHandler jsonParse (buildPublisher cfg (amqp app))
                                      (identities app))
           configs.
Proof.
  unfold buildPublisher, newPublisher. cbn.
  split; [reflexivity|].
  split; [destruct (cfg_confirm config); split; (reflexivity || discriminate)|].
  split; [destruct (cfg_confirm config); split; (reflexivity || discriminate)|].
  split; [destruct (cfg_contentType config); reflexivity|].
  split; [destruct (cfg_contentType config); split; (reflexivity || discriminate)|].
  split; [reflexivity|]. split; [reflexivity|].
  rewrite registerPublishers_fold. cbn [snd List.app]. rewrite map_map. reflexivity.
Qed.

(** A rejected promise is never answered in the 2xx range, whatever status
    the handler had set on the reply. *)
Lemma respond_rejected (res : Reply) (e : ErrorKind) :
  400 <= resp_status (respond res (Rejects e)).
Proof.
  unfold respond. cbn [resp_status].
  destruct (400 <=? statusOf e) eqn:He; [apply Z.leb_le; exact He|].
  destruct (400 <=? statusCode res) eqn:Hs; [apply Z.leb_le; exact Hs|lia].
Qed.

(** C2. A publisher built with [confirm] set answers 201 exactly when the
    request is taken on (it passes the identity guard and the parser) and the
    broker confirms the publish positively, and then reports
    [confirmed: true]; when the broker does not confirm, the answer is outside
    the 2xx range, although the handler has set 201 on the reply before the
    promise of [sendMessage] settles. *)
Theorem confirm_publish_201_iff_confirmed
  (jsonParse : option Schema -> list Byte.byte -> option (list Byte.byte))
  (config : PublisherConfig) (idents : list IdentityConfig)
  (req : Request) (broker : BrokerOutcome) :
  cfg_confirm config = true ->
  let publisher := buildPublisher config Server.pluginAmqp in
  let response := publishRoute jsonParse publisher idents req broker in
  (resp_status response = 201
   <-> accepted jsonParse publisher idents req = true /\ broker = PositiveConfirm)
  /\ (broker <> PositiveConfirm -> ~ (200 <= resp_status response < 300))
  /\ (resp_status response = 201 ->
      exists len, resp_body response = Some (mkPublishResult len true))
  /\ (verifyRequest (pub_identities publisher) idents req = true ->
      statusCode (fst (publishHandler jsonParse publisher idents req (mkReply 200))) = 201).
Proof.
  intros Hconfirm publisher response.
  assert (Hch : pub_channel publisher = ConfirmChannel).
  { subst publisher. cbn. rewrite Hconfirm. reflexivity. }
  subst response. clearbody publisher.
  unfold publishRoute, publishHandler, accepted.
  destruct (verifyRequest (pub_identities publisher) idents req) eqn:Hguard.
  - unfold sendMessage. cbn [status fst andb].
    destruct (parseInbound jsonParse (messageParser publisher)
                (req_contentType req) (req_body req)) as [payload|e] eqn:Hparse.
    + rewrite Hch.
      destruct broker; cbn; (split; [split|split; [|split]]);
        try (intros; reflexivity); try (intros; discriminate);
        try (intros [_ H]; discriminate H); try (intros; split; reflexivity);
        try (intros H; exfalso; apply H; reflexivity);
        try (intros _; lia); try (intros; eexists; reflexivity).
    + pose proof (respond_rejected (status 201 (mkReply 200)) e) as Hrej.
      split; [split|split; [|split]].
      * intros H. rewrite H in Hrej. lia.
      * intros [H _]. discriminate H.
      * intros _. lia.
      * intros H. rewrite H in Hrej. lia.
      * intros _. reflexivity.
  - cbn [fst]. pose proof (respond_rejected (mkReply 200) FORBIDDEN) as Hrej.
    split; [split|split; [|split]].
    + intros H. rewrite H in Hrej. lia.
    + intros [H _]. discriminate H.
    + intros _. lia.
    + intros H. rewrite H in Hrej. lia.
    + intros H. discriminate H.
Qed.

(** The first scenario of the test suite: a JSON body to [jsonq], confirmed. *)
Lemma confirm_publish_201_iff_confirmed_witness :
  resp_status (publishRoute Samples.anyJson
                 (buildPublisher Samples.jsonq Server.pluginAmqp) []
                 Samples.okTrue PositiveConfirm) = 201
  <-> accepted Samples.anyJson (buildPublisher Samples.jsonq Server.pluginAmqp) []
        Samples.okTrue = true
      /\ PositiveConfirm = PositiveConfirm.
Proof.
  apply (confirm_publish_201_iff_confirmed Samples.anyJson Samples.jsonq []
           Samples.okTrue PositiveConfirm).
  reflexivity.
Defined.

(** ** Request bodies *)

Import Server.





(** ** The running server *)

Lemma pollLoop_inert (budget : nat) :
  forall (r : nat) (app : App),
    (r + budget = 5)%nat ->
    snd (fst (pollLoop r app)) = app /\ Inert (fst (fst (pollLoop r app))).
Proof.
  induction budget as [|budget IH]; intros r app Hr; rewrite pollLoop_eq.
  - destruct (lt_dec r 5) as [Hlt|_]; [lia|].
    unfold_async. split; [reflexivity|].
    constructor. intros how app1. destruct how; cbn; split; (reflexivity || constructor).
  - destruct (lt_dec r 5) as [_|Hge]; [|lia].
    unfold_async.
    destruct (subscriberDeliveriesInFlight (subscribers app) =? 0); cbn.
    + split; [reflexivity|].
      constructor. intros how app1. destruct how; cbn; split; (reflexivity || constructor).
    + split; [reflexivity|].
      constructor. intros how app1.
      destruct (IH (S r) app1) as [Happ Hinert]; [lia|].
      destruct (pollLoop (S r) app1) as [[q a] o]. cbn in *. split; assumption.
Qed.

(** The call on the graceful path, up to its first [await]. *)
Lemma graceful_first_segment (app : App) :
  errorShutdown app = false ->
  exists resume,
    gracefullyHandleSubscriberShutdown app
    = (Suspended resume, set_pendingShutdown true app,
       Log Info "Cancelling all subscribers"
       :: map (fun s => SubscriberStop s false) (subscribers app))
    /\ Inert (Suspended resume).
Proof.
  intros Herr. unfold gracefullyHandleSubscriberShutdown.
  unfold bind at 1. cbn [modify andThen].
  unfold bind at 1. cbn [gets andThen].
  change (errorShutdown (set_pendingShutdown true app)) with (errorShutdown app).
  rewrite Herr. cbn [negb].
  unfold bind at 1. cbn [log emit andThen].
  unfold bind at 1. cbn [gets andThen].
  unfold bind at 1. rewrite forEach_stop. cbn [andThen].
  unfold bind at 1. cbn [await andThen].
  eexists. split.
  - cbn [List.app]. rewrite !app_nil_r. reflexivity.
  - constructor. intros how app1. destruct how; cbn [andThen fst snd].
    + unfold bind. cbn [log emit andThen].
      destruct (pollLoop_inert 5 0 app1 eq_refl) as [Happ Hinert].
      destruct (pollLoop 0 app1) as [[q a] o]. cbn in *. split; assumption.
    + cbn. split; [reflexivity | constructor].
Qed.

Lemma handleConnectionClose_cases (app : App) :
  handleConnectionClose app
  = if pendingShutdown app then
      (Returned tt, app, [Log Info "AMQP connection was closed."])
    else if errorShutdown app then
      (Returned tt, app, [])
    else
      (Returned tt, set_errorShutdown true app,
       [Log Fatal "AMQP connection was closed unexpectedly. BRP is shutting down";
        AppClose]).
Proof.
  unfold handleConnectionClose. unfold bind at 1. cbn [gets andThen].
  destruct (pendingShutdown app); [reflexivity|].
  unfold bind at 1. cbn [gets andThen].
  destruct (errorShutdown app); reflexivity.
Qed.

Lemma handleChannelClose_cases (isConfirmChannel : bool) (app : App) :
  handleChannelClose isConfirmChannel app
  = if pendingShutdown app then
      (Returned tt, app,
       [Log Info ("AMQP " ++ (if isConfirmChannel then "confirm " else "")
                  ++ "channel was closed.")%string])
    else if errorShutdown app then
      (Returned tt, app, [])
    else
      (Returned tt, set_errorShutdown true app,
       [Log Fatal "AMQP channel was closed unexpectedly. BRP is shutting down";
        ConnectionClose; AppClose]).
Proof.
  unfold handleChannelClose. unfold bind at 1. cbn [gets andThen].
  destruct (pendingShutdown app); [reflexivity|].
  unfold bind at 1. cbn [gets andThen].
  destruct (errorShutdown app); reflexivity.
Qed.

Lemma keepsFlags_refl (app : App) : keepsFlags app app.
Proof. split; intros H; exact H. Qed.

Lemma keepsFlags_trans (a b c : App) :
  keepsFlags a b -> keepsFlags b c -> keepsFlags a c.
Proof. intros [H1 H2] [H3 H4]. split; auto. Qed.

Lemma replaceNth_Forall {A : Type} (P : A -> Prop) (x : A) (l : list A) :
  P x -> Forall P l -> forall i, Forall P (replaceNth i x l).
Proof.
  intros Hx Hl. induction Hl as [|y l Hy Hl IH]; intros i.
  - destruct i; constructor.
  - destruct i; cbn; constructor; auto.
Qed.

(** Each dispatch keeps the flags that are set, and leaves only inert calls
    suspended. *)
Lemma step_invariant (e : Event) (s : System) :
  Forall Inert (sys_suspended s) ->
  Forall Inert (sys_suspended (fst (step e s)))
  /\ keepsFlags (sys_app s) (sys_app (fst (step e s))).
Proof.
  intros Hinv. destruct s as [app suspended]. cbn [sys_app sys_suspended] in *.
  destruct e as [| |isConfirm| |i how|subs|pubs]; cbn [step].
  - unfold dispatch, onShutdownSignal. unfold_async.
    split; [exact Hinv|]. split; intros H; [reflexivity | exact H].
  - unfold dispatch. cbn [sys_app sys_suspended].
    rewrite handleConnectionClose_cases.
    destruct (pendingShutdown app) eqn:Hp; [|destruct (errorShutdown app) eqn:He];
      cbn; (split; [exact Hinv|]); split; intros H; cbn; congruence.
  - unfold dispatch. cbn [sys_app sys_suspended].
    rewrite handleChannelClose_cases.
    destruct (pendingShutdown app) eqn:Hp; [|destruct (errorShutdown app) eqn:He];
      cbn; (split; [exact Hinv|]); split; intros H; cbn; congruence.
  - unfold dispatch, onClose. cbn [sys_app sys_suspended].
    destruct (errorShutdown app) eqn:He.
    + rewrite (graceful_hard_call app He). cbn.
      split; [exact Hinv|]. split; intros H; [reflexivity | exact He].
    + destruct (graceful_first_segment app He) as (resume & Hcall & Hinert).
      rewrite Hcall. cbn.
      split; [apply Forall_app; split; [exact Hinv | constructor; [exact Hinert | constructor]]|].
      split; intros H; [reflexivity | congruence].
  - cbn [sys_app sys_suspended].
    destruct (nth_error suspended i) as [p|] eqn:Hnth;
      [|cbn; split; [exact Hinv | apply keepsFlags_refl]].
    destruct p as [a| |resume];
      try (cbn; split; [exact Hinv | apply keepsFlags_refl]).
    assert (Hp : Inert (Suspended resume)).
    { eapply Forall_forall; [exact Hinv | eapply nth_error_In; exact Hnth]. }
    inversion Hp as [| |resume' Hres Heq]; subst resume'.
    destruct (Hres how app) as [Happ Hnext].
    destruct (resume how app) as [[p1 app1] out]. cbn in *. subst app1.
    split; [apply replaceNth_Forall; assumption | apply keepsFlags_refl].
  - cbn. split; [exact Hinv | split; intros H; exact H].
  - cbn. split; [exact Hinv | split; intros H; exact H].
Qed.

Lemma run_cons (e : Event) (events : list Event) (s : System) :
  fst (run (e :: events) s) = fst (run events (fst (step e s))).
Proof.
  cbn [run]. destruct (step e s) as [s1 out1]. cbn [fst].
  destruct (run events s1) as [s2 out2]. reflexivity.
Qed.

Lemma run_invariant (events : list Event) :
  forall s : System,
    Forall Inert (sys_suspended s) ->
    Forall Inert (sys_suspended (fst (run events s)))
    /\ keepsFlags (sys_app s) (sys_app (fst (run events s))).
Proof.
  induction events as [|e events IH]; intros s Hinv.
  - cbn. split; [exact Hinv | apply keepsFlags_refl].
  - rewrite run_cons.
    destruct (step_invariant e s Hinv) as [Hinv1 Hflags1].
    destruct (IH _ Hinv1) as [Hinv2 Hflags2].
    split; [exact Hinv2 | eapply keepsFlags_trans; eassumption].
Qed.

Lemma boot_invariant (app : App) : Forall Inert (sys_suspended (boot app)).
Proof. constructor. Qed.

(** What a close event does once [pendingShutdown] is set. *)
Lemma close_event_when_pending (s : System) (isConfirmChannel : bool) :
  pendingShutdown (sys_app s) = true ->
  step ConnectionClosed s = (s, [Log Info "AMQP connection was closed."])
  /\ step (ChannelClosed isConfirmChannel) s
     = (s, [Log Info ("AMQP " ++ (if isConfirmChannel then "confirm " else "")
                      ++ "channel was closed.")%string]).
Proof.
  intros Hp. destruct s as [app suspended]. cbn [sys_app] in Hp.
  cbn [step]. unfold dispatch. cbn [sys_app sys_suspended].
  rewrite handleConnectionClose_cases, handleChannelClose_cases, Hp.
  split; reflexivity.
Qed.

(** After the unexpected close of a channel or of the connection. *)
Lemma close_event_unexpected (s : System) (isConfirmChannel : bool) :
  pendingShutdown (sys_app s) = false ->
  errorShutdown (sys_app s) = false ->
  step ConnectionClosed s
  = ({| sys_app := set_errorShutdown true (sys_app s);
        sys_suspended := sys_suspended s |},
     [Log Fatal "AMQP connection was closed unexpectedly. BRP is shutting down";
      AppClose])
  /\ step (ChannelClosed isConfirmChannel) s
     = ({| sys_app := set_errorShutdown true (sys_app s);
           sys_suspended := sys_suspended s |},
        [Log Fatal "AMQP channel was closed unexpectedly. BRP is shutting down";
         ConnectionClose; AppClose]).
Proof.
  intros Hp He. cbn [step]. unfold dispatch.
  rewrite handleConnectionClose_cases, handleChannelClose_cases, Hp, He.
  split; reflexivity.
Qed.

(** The close hook once [errorShutdown] is set. *)
Lemma close_hook_when_failed (s : System) :
  errorShutdown (sys_app s) = true ->
  step CloseHook s
  = ({| sys_app := set_pendingShutdown true (sys_app s);
        sys_suspended := sys_suspended s |},
     map (fun x => SubscriberStop x true) (subscribers (sys_app s))).
Proof.
  intros He. cbn [step]. unfold dispatch, onClose.
  rewrite (graceful_hard_call _ He). reflexivity.
Qed.

(** C5. A close of the connection or of a channel while [pendingShutdown]
    and [errorShutdown] are both unset sets [errorShutdown], logs at level
    fatal, closes the connection when it is a channel that closed, and calls
    [app.close()]; whenever the framework then runs the close hook, whatever
    happened in between, every subscriber gets [stop(true)] and nothing else
    is done.  With [pendingShutdown] set, the same events change nothing and
    write one line to the log. *)
Theorem unexpected_close_starts_error_shutdown
  (app0 : App) (before between : list Event) (isConfirmChannel : bool) :
  let s := fst (run before (boot app0)) in
  let failed := {| sys_app := set_errorShutdown true (sys_app s);
                   sys_suspended := sys_suspended s |} in
  let later := fst (run between failed) in
  (pendingShutdown (sys_app s) = false ->
   errorShutdown (sys_app s) = false ->
   step ConnectionClosed s
   = (failed,
      [Log Fatal "AMQP connection was closed unexpectedly. BRP is shutting down";
       AppClose])
   /\ step (ChannelClosed isConfirmChannel) s
      = (failed,
         [Log Fatal "AMQP channel was closed unexpectedly. BRP is shutting down";
          ConnectionClose; AppClose])
   /\ errorShutdown (sys_app failed) = true
   /\ step CloseHook later
      = ({| sys_app := set_pendingShutdown true (sys_app later);
            sys_suspended := sys_suspended later |},
         map (fun x => SubscriberStop x true) (subscribers (sys_app later))))
  /\ (pendingShutdown (sys_app s) = true ->
      step ConnectionClosed s = (s, [Log Info "AMQP connection was closed."])
      /\ step (ChannelClosed isConfirmChannel) s
         = (s, [Log Info ("AMQP " ++ (if isConfirmChannel then "confirm " else "")
                          ++ "channel was closed.")%string])).
Proof.
  intros s failed later.
  destruct (run_invariant before (boot app0) (boot_invariant app0)) as [Hinv _].
  fold s in Hinv.
  split.
  - intros Hp He.
    destruct (close_event_unexpected s isConfirmChannel Hp He) as [Hconn Hchan].
    split; [exact Hconn|]. split; [exact Hchan|]. split; [reflexivity|].
    apply close_hook_when_failed.
    assert (Hinv' : Forall Inert (sys_suspended failed)) by exact Hinv.
    destruct (run_invariant between failed Hinv') as [_ [_ Hkept]].
    apply Hkept. reflexivity.
  - intros Hp. apply close_event_when_pending. exact Hp.
Qed.

(** The confirm channel is lost while two pushes are in flight; the close
    of the connection follows, then the close hook. *)
Lemma unexpected_close_starts_error_shutdown_witness :
  step (ChannelClosed true)
       (fst (run [SubscriberActivity Samples.twoSubscribers] (boot Samples.app)))
  = ({| sys_app := set_errorShutdown true Samples.app; sys_suspended := [] |},
     [Log Fatal "AMQP channel was closed unexpectedly. BRP is shutting down";
      ConnectionClose; AppClose])
  /\ step CloseHook
          (fst (run [ConnectionClosed]
                  {| sys_app := set_errorShutdown true Samples.app; sys_suspended := [] |}))
     = ({| sys_app := set_pendingShutdown true (set_errorShutdown true Samples.app);
           sys_suspended := [] |},
        [SubscriberStop (mkSubscriber "binarytest" 2) true;
         SubscriberStop (mkSubscriber "jsontest" 0) true]).
Proof.
  destruct (unexpected_close_starts_error_shutdown Samples.app
              [SubscriberActivity Samples.twoSubscribers] [ConnectionClosed] true)
    as [H _].
  destruct (H eq_refl eq_refl) as (_ & Hchannel & _ & Hhook).
  split; [exact Hchannel | exact Hhook].
Defined.

Lemma buildApp_flags
  (jsonParse : option Schema -> list Byte.byte -> option (list Byte.byte))
  (yamlConfig : YamlConfig) (builtIn : ContentTypeParser) :
  pendingShutdown (fst (fst (buildApp jsonParse yamlConfig builtIn))) = false
  /\ errorShutdown (fst (fst (buildApp jsonParse yamlConfig builtIn))) = false.
Proof.
  unfold buildApp. rewrite registerPublishers_fold. split; reflexivity.
Qed.

(** C7. [buildApp] starts with both flags unset; no dispatch of the running
    server, whatever came before, unsets a flag that is set; and once
    [errorShutdown] is set a close of the connection or of a channel leaves
    the server as it is and does not call [app.close()]: it does nothing, or
    writes one line to the log. *)
Theorem shutdown_flags_write_once
  (jsonParse : option Schema -> list Byte.byte -> option (list Byte.byte))
  (yamlConfig : YamlConfig) (builtIn : ContentTypeParser)
  (events : list Event) (e : Event) (isConfirmChannel : bool) :
  let app0 := fst (fst (buildApp jsonParse yamlConfig builtIn)) in
  let s := fst (run events (boot app0)) in
  (pendingShutdown app0 = false /\ errorShutdown app0 = false)
  /\ keepsFlags app0 (sys_app s)
  /\ keepsFlags (sys_app s) (sys_app (fst (step e s)))
  /\ (errorShutdown (sys_app s) = true ->
      fst (step ConnectionClosed s) = s
      /\ fst (step (ChannelClosed isConfirmChannel) s) = s
      /\ loggedOnly (snd (step ConnectionClosed s))
      /\ loggedOnly (snd (step (ChannelClosed isConfirmChannel) s))
      /\ ~ In AppClose (snd (step ConnectionClosed s))
      /\ ~ In AppClose (snd (step (ChannelClosed isConfirmChannel) s))).
Proof.
  intros app0 s.
  destruct (run_invariant events (boot app0) (boot_invariant app0)) as [Hinv Hkept].
  fold s in Hinv, Hkept.
  split; [apply buildApp_flags|]. split; [exact Hkept|].
  split; [apply step_invariant; exact Hinv|].
  intros He. destruct s as [app suspended]. cbn [sys_app] in He.
  cbn [step]. unfold dispatch. cbn [sys_app sys_suspended].
  rewrite handleConnectionClose_cases, handleChannelClose_cases, He.
  destruct (pendingShutdown app); cbn [fst snd].
  - repeat split; try (right; eexists; reflexivity);
      intros [H|[]]; discriminate H.
  - repeat split; try (left; reflexivity); intros [].
Qed.

(** After a lost channel, the close of the connection that follows does
    nothing. *)
Lemma shutdown_flags_write_once_witness :
  fst (step ConnectionClosed (fst (run Samples.channelLost (boot Samples.built))))
  = fst (run Samples.channelLost (boot Samples.built))
  /\ ~ In AppClose
       (snd (step ConnectionClosed (fst (run Samples.channelLost (boot Samples.built))))).
Proof.
  destruct (shutdown_flags_write_once Samples.anyJson Samples.yaml Samples.noParsers
              Samples.channelLost ConnectionClosed true)
    as (_ & _ & _ & H).
  destruct (H eq_refl) as (Hsame & _ & _ & _ & Hquiet & _).
  split; [exact Hsame | exact Hquiet].
Defined.

(** C9. The coordinator sets [pendingShutdown] before anything else, on
    both paths: it is that assignment followed by the rest, and after its
    first stretch the app differs from the one it found in that flag alone.
    So once the close hook has started, and whatever is dispatched
    afterwards, a close of the connection or of a channel leaves the server
    as it is, [errorShutdown] included, and only writes one line to the log
    at level info: no [app.close()]. *)
Theorem close_after_shutdown_began_is_expected
  (app0 : App) (before after : list Event) (isConfirmChannel : bool) :
  let s0 := fst (run before (boot app0)) in
  let s1 := fst (step CloseHook s0) in
  let s2 := fst (run after s1) in
  (exists rest : Async unit,
      gracefullyHandleSubscriberShutdown = (modify (set_pendingShutdown true) ;; rest))
  /\ (forall app : App,
         snd (fst (gracefullyHandleSubscriberShutdown app)) = set_pendingShutdown true app)
  /\ pendingShutdown (sys_app s1) = true
  /\ pendingShutdown (sys_app s2) = true
  /\ step ConnectionClosed s2 = (s2, [Log Info "AMQP connection was closed."])
  /\ step (ChannelClosed isConfirmChannel) s2
     = (s2, [Log Info ("AMQP " ++ (if isConfirmChannel then "confirm " else "")
                       ++ "channel was closed.")%string]).
Proof.
  intros s0 s1 s2.
  assert (Hfirst : forall app : App,
             snd (fst (gracefullyHandleSubscriberShutdown app))
             = set_pendingShutdown true app).
  { intros app. destruct (errorShutdown app) eqn:He.
    - rewrite (graceful_hard_call app He). reflexivity.
    - destruct (graceful_first_segment app He) as (resume & Hcall & _).
      rewrite Hcall. reflexivity. }
  assert (Hp1 : pendingShutdown (sys_app s1) = true).
  { subst s1. cbn [step]. unfold dispatch, onClose.
    pose proof (Hfirst (sys_app s0)) as H.
    destruct (gracefullyHandleSubscriberShutdown (sys_app s0)) as [[p a] out].
    cbn in *. subst a. reflexivity. }
  destruct (run_invariant before (boot app0) (boot_invariant app0)) as [Hinv0 _].
  fold s0 in Hinv0.
  destruct (step_invariant CloseHook s0 Hinv0) as [Hinv1 _]. fold s1 in Hinv1.
  destruct (run_invariant after s1 Hinv1) as [_ [Hkept _]]. fold s2 in Hkept.
  pose proof (Hkept Hp1) as Hp2.
  split; [eexists; reflexivity|].
  split; [exact Hfirst|]. split; [exact Hp1|]. split; [exact Hp2|].
  apply close_event_when_pending. exact Hp2.
Qed.

(** ** Scenarios *)

Example never_drains_run :
  effectsOf gracefullyHandleSubscriberShutdown Samples.app Samples.neverDrains
  = [Log Info "Cancelling all subscribers";
     SubscriberStop (mkSubscriber "binarytest" 2) false;
     SubscriberStop (mkSubscriber "jsontest" 0) false;
     Log Info "Checking for subscribers with un-processed messages";
     Log Warn "Some subscribers are pushing messages that are still in-flight (2). Waiting 1s for retry #1";
     SetTimeout 1000;
     Log Warn "Some subscribers are pushing messages that are still in-flight (2). Waiting 1s for retry #2";
     SetTimeout 1000;
     Log Warn "Some subscribers are pushing messages that are still in-flight (2). Waiting 1s for retry #3";
     SetTimeout 1000;
     Log Warn "Some subscribers are pushing messages that are still in-flight (2). Waiting 1s for retry #4";
     SetTimeout 1000;
     Log Warn "Some subscribers are pushing messages that are still in-flight (2). Waiting 1s for retry #5";
     SetTimeout 1000;
     Log Warn "Maximum number of retries exceeded. Forcefully closing the connection.";
     ConnectionClose].
Proof. reflexivity. Qed.

Example stops_rejected_run :
  effectsOf gracefullyHandleSubscriberShutdown Samples.app
    (fun _ => (Failed, set_pendingShutdown true Samples.app))
  = [Log Info "Cancelling all subscribers";
     SubscriberStop (mkSubscriber "binarytest" 2) false;
     SubscriberStop (mkSubscriber "jsontest" 0) false].
Proof. reflexivity. Qed.

Example signalled_run :
  snd (run Samples.signalled (boot Samples.built))
  = [Log Info "Starting graceful shutdown sequence.";
     Log Info "Cancelling all subscribers";
     SubscriberStop (mkSubscriber "binarytest" 2) false;
     SubscriberStop (mkSubscriber "jsontest" 0) false;
     Log Info "Checking for subscribers with un-processed messages";
     Log Warn "Some subscribers are pushing messages that are still in-flight (2). Waiting 1s for retry #1";
     SetTimeout 1000].
Proof. reflexivity. Qed.

Example channel_lost_run :
  snd (run (Samples.channelLost ++ [ConnectionClosed; CloseHook]) (boot Samples.built))
  = [Log Fatal "AMQP channel was closed unexpectedly. BRP is shutting down";
     ConnectionClose;
     AppClose;
     SubscriberStop (mkSubscriber "binarytest" 2) true;
     SubscriberStop (mkSubscriber "jsontest" 0) true].
Proof. reflexivity. Qed.

Example totalMessagesInFlight_sums :
  totalMessagesInFlight [Samples.busyPublisher; Samples.busyPublisher] = 6.
Proof. reflexivity. Qed.

Example built_publishers :
  publishers Samples.built
  = [mkPublisher "jsonq" ConfirmChannel (JSONMessageParser (Some "{}")) [] 0].
Proof. reflexivity. Qed.

Example json_confirmed :
  publishRoute Samples.anyJson (buildPublisher Samples.jsonq pluginAmqp) []
    Samples.okTrue PositiveConfirm
  = mkResponse 201 (Some (mkPublishResult 2 true)).
Proof. reflexivity. Qed.

Example json_nacked :
  resp_status (publishRoute Samples.anyJson (buildPublisher Samples.jsonq pluginAmqp) []
                 Samples.okTrue NegativeConfirm) = 502.
Proof. reflexivity. Qed.

Example binary_to_json_publisher :
  resp_status (publishRoute Samples.anyJson (buildPublisher Samples.jsonq pluginAmqp) []
                 (mkRequest (Some "application/octet-stream") None None [Byte.x62])
                 PositiveConfirm) = 415.
Proof. reflexivity. Qed.

Example named_parsers_reject_unknown_type :
  handleRequest (mkContentTypeParser [("application/json", passThrough)] None)
    Samples.csv
  = Refused 415.
Proof. reflexivity. Qed.

Example catch_all_takes_unknown_type :
  handleRequest
    (contentTypeParsers (mkContentTypeParser [("application/json", passThrough)] None))
    Samples.csv
  = Handled (Some [Byte.x61; Byte.x2c]).
Proof. reflexivity. Qed.

Example content_length_read :
  parseInt "1048577" = Some 1048577 /\ parseInt " 12px" = Some 12
  /\ parseInt "-7" = Some (-7) /\ parseInt "px" = None /\ parseInt "" = None.
Proof. repeat split. Qed.

Example zero_length_with_type_is_parsed :
  handleRequest
    (snd (buildApp Samples.anyJson Samples.yaml Samples.noParsers))
    (mkIncoming (Some "application/json") (Some "0") None [])
  = Handled (Some []).
Proof. reflexivity. Qed.

(** * Further properties *)

(** ** The two sums of lifecycle.ts *)

Section SumOf.

Variable A : Type.
Variable f : A -> Z.

Let sumOf (l : list A) : Z := fold_left (fun acc x => acc + f x) l 0.

Lemma fold_sum_from (l : list A) (a : Z) :
  fold_left (fun acc x => acc + f x) l a = a + sumOf l.
Proof.
  unfold sumOf. revert a. induction l as [|x l IH]; intros a; cbn.
  - lia.
  - rewrite IH, (IH (f x)). lia.
Qed.

Lemma sumOf_cons (x : A) (l : list A) : sumOf (x :: l) = f x + sumOf l.
Proof. unfold sumOf at 1. cbn. apply fold_sum_from. Qed.

Lemma sumOf_app (l1 l2 : list A) : sumOf (l1 ++ l2) = sumOf l1 + sumOf l2.
Proof.
  induction l1 as [|x l1 IH]; [reflexivity|].
  cbn [List.app]. rewrite !sumOf_cons, IH. lia.
Qed.

Lemma sumOf_permutation (l l' : list A) : Permutation l l' -> sumOf l = sumOf l'.
Proof.
  induction 1 as [|x l l' _ IH|x y l|l l' l'' _ IH1 _ IH2].
  - reflexivity.
  - rewrite !sumOf_cons, IH. reflexivity.
  - rewrite !sumOf_cons. lia.
  - congruence.
Qed.

Lemma sumOf_nonneg (l : list A) : Forall (fun x => 0 <= f x) l -> 0 <= sumOf l.
Proof.
  induction 1 as [|x l Hx _ IH]; [reflexivity|]. rewrite sumOf_cons. lia.
Qed.

Lemma sumOf_bounds_each (l : list A) :
  Forall (fun x => 0 <= f x) l -> forall x, In x l -> f x <= sumOf l.
Proof.
  induction 1 as [|y l Hy Hl IH]; intros x Hin; [destruct Hin|].
  rewrite sumOf_cons. destruct Hin as [Hx|Hx].
  - subst y. pose proof (sumOf_nonneg l Hl). lia.
  - specialize (IH x Hx). lia.
Qed.

Lemma sumOf_zero_iff (l : list A) :
  Forall (fun x => 0 <= f x) l ->
  (sumOf l = 0 <-> Forall (fun x => f x = 0) l).
Proof.
  induction 1 as [|x l Hx Hl IH].
  - split; [constructor | reflexivity].
  - rewrite sumOf_cons. pose proof (sumOf_nonneg l Hl) as Hs. split.
    + intros H. constructor; [lia | apply IH; lia].
    + intros H. inversion H as [|? ? H0 Hrest]; subst.
      apply IH in Hrest. lia.
Qed.

End SumOf.

(** X1. The sum that the coordinator polls does not depend on the order of
    [app.subscribers], and the sum over two lists put together is the sum of
    their sums. *)
Theorem subscriber_sum_order_free (l l' l1 l2 : list Subscriber) :
  Permutation l l' ->
  subscriberDeliveriesInFlight l = subscriberDeliveriesInFlight l'
  /\ subscriberDeliveriesInFlight (l1 ++ l2)
     = subscriberDeliveriesInFlight l1 + subscriberDeliveriesInFlight l2.
Proof.
  intros Hperm. split.
  - apply (sumOf_permutation Subscriber inFlightPushRequests l l' Hperm).
  - apply (sumOf_app Subscriber inFlightPushRequests).
Qed.

Lemma subscriber_sum_order_free_witness :
  subscriberDeliveriesInFlight Samples.twoSubscribers
  = subscriberDeliveriesInFlight (rev Samples.twoSubscribers)
  /\ subscriberDeliveriesInFlight (Samples.twoSubscribers ++ Samples.idle)
     = subscriberDeliveriesInFlight Samples.twoSubscribers
       + subscriberDeliveriesInFlight Samples.idle.
Proof.
  apply (subscriber_sum_order_free Samples.twoSubscribers (rev Samples.twoSubscribers)).
  apply Permutation_rev.
Defined.

(** X2. With counters that are not negative, the polled sum is zero exactly
    when no subscriber has a push in flight, and it is never below the
    counter of any one subscriber. *)
Theorem subscriber_sum_zero_iff_idle (l : list Subscriber) :
  idleOrBusy l ->
  (subscriberDeliveriesInFlight l = 0
   <-> Forall (fun s => inFlightPushRequests s = 0) l)
  /\ (forall s, In s l -> inFlightPushRequests s <= subscriberDeliveriesInFlight l)
  /\ 0 <= subscriberDeliveriesInFlight l.
Proof.
  intros Hl. split; [|split].
  - apply (sumOf_zero_iff Subscriber inFlightPushRequests l Hl).
  - apply (sumOf_bounds_each Subscriber inFlightPushRequests l Hl).
  - apply (sumOf_nonneg Subscriber inFlightPushRequests l Hl).
Qed.

Lemma subscriber_sum_zero_iff_idle_witness :
  subscriberDeliveriesInFlight Samples.idle = 0
  <-> Forall (fun s => inFlightPushRequests s = 0) Samples.idle.
Proof.
  apply (subscriber_sum_zero_iff_idle Samples.idle).
  repeat constructor; discriminate.
Defined.

(** X3. [totalMessagesInFlight] adds up over publishers put together and does
    not depend on their order; with counters that are not negative it is zero
    exactly when no publisher has a message in flight, and never below the
    counter of any one publisher. *)
Theorem totalMessagesInFlight_sum (l l' : list Publisher) :
  totalMessagesInFlight (l ++ l') = totalMessagesInFlight l + totalMessagesInFlight l'
  /\ totalMessagesInFlight (l' ++ l) = totalMessagesInFlight (l ++ l')
  /\ (Permutation l l' -> totalMessagesInFlight l = totalMessagesInFlight l')
  /\ (notOverdrawn l ->
      (totalMessagesInFlight l = 0 <-> Forall (fun p => messagesInFlight p = 0) l)
      /\ (forall p, In p l -> messagesInFlight p <= totalMessagesInFlight l)).
Proof.
  split; [|split; [|split]].
  - apply (sumOf_app Publisher messagesInFlight).
  - apply (sumOf_permutation Publisher messagesInFlight). apply Permutation_app_comm.
  - apply (sumOf_permutation Publisher messagesInFlight).
  - intros Hl. split.
    + apply (sumOf_zero_iff Publisher messagesInFlight l Hl).
    + apply (sumOf_bounds_each Publisher messagesInFlight l Hl).
Qed.

Lemma totalMessagesInFlight_sum_witness :
  totalMessagesInFlight (publishers Cases.ready)
  = totalMessagesInFlight (rev (publishers Cases.ready))
  /\ forall p, In p (publishers Cases.ready) ->
               messagesInFlight p <= totalMessagesInFlight (publishers Cases.ready).
Proof.
  destruct (totalMessagesInFlight_sum (publishers Cases.ready)
              (rev (publishers Cases.ready))) as (_ & _ & Horder & Hcounters).
  split.
  - apply Horder. apply Permutation_rev.
  - apply Hcounters. repeat constructor; discriminate.
Defined.

(** ** What the coordinator does on every path *)

Lemma timers_app (l1 l2 : list Effect) : timers (l1 ++ l2) = timers l1 ++ timers l2.
Proof. apply flat_map_app. Qed.

Lemma stops_app (l1 l2 : list Effect) : stops (l1 ++ l2) = stops l1 ++ stops l2.
Proof. apply flat_map_app. Qed.

Lemma appCloses_app (l1 l2 : list Effect) :
  appCloses (l1 ++ l2) = (appCloses l1 + appCloses l2)%nat.
Proof. unfold appCloses. rewrite flat_map_app. apply length_app. Qed.

Lemma connectionCloses_app (l1 l2 : list Effect) :
  connectionCloses (l1 ++ l2) = (connectionCloses l1 + connectionCloses l2)%nat.
Proof. unfold connectionCloses. rewrite flat_map_app. apply length_app. Qed.

(** The calls of [stop] on a list of subscribers, read back. *)
Lemma read_stops (hard : bool) (l : list Subscriber) :
  timers (map (fun s => SubscriberStop s hard) l) = []
  /\ stops (map (fun s => SubscriberStop s hard) l) = map (fun s => (s, hard)) l
  /\ appCloses (map (fun s => SubscriberStop s hard) l) = 0%nat
  /\ connectionCloses (map (fun s => SubscriberStop s hard) l) = 0%nat.
Proof.
  induction l as [|s l (IH1 & IH2 & IH3 & IH4)]; [repeat split|].
  repeat split; cbn.
  - exact IH1.
  - f_equal. exact IH2.
  - exact IH3.
  - exact IH4.
Qed.

(** The polls that waited, read back. *)
Lemma read_rounds (world : World) (n : nat) :
  forall r : nat,
    timers (flat_map (waitRound world) (seq r n)) = repeat 1000 n
    /\ stops (flat_map (waitRound world) (seq r n)) = []
    /\ appCloses (flat_map (waitRound world) (seq r n)) = 0%nat
    /\ connectionCloses (flat_map (waitRound world) (seq r n)) = 0%nat.
Proof.
  induction n as [|n IH]; intros r; [repeat split|].
  destruct (IH (S r)) as (IH1 & IH2 & IH3 & IH4).
  cbn [seq flat_map]. unfold waitRound at 1 3 5 7. cbn [List.app].
  repeat split; cbn.
  - f_equal. exact IH1.
  - exact IH2.
  - exact IH3.
  - exact IH4.
Qed.

Lemma read_closing (n : nat) :
  timers (closing n) = [] /\ stops (closing n) = []
  /\ appCloses (closing n) = 0%nat /\ connectionCloses (closing n) = 1%nat.
Proof. unfold closing, closeNote. destruct (n <? 5)%nat; repeat split. Qed.

(** The effects of the coordinator, whatever the flags and whatever the
    event loop does: [n] is the number of polls that waited. *)
Lemma graceful_effects_cases (app : App) (world : World) :
  exists n : nat,
    (n <= 5)%nat /\
    (forall j, (j < n)%nat -> reading world j <> 0) /\
    ((n < 5)%nat -> reading world n = 0) /\
    effectsOf gracefullyHandleSubscriberShutdown app world
    = if errorShutdown app then
        map (fun s => SubscriberStop s true) (subscribers app)
      else
        Log Info "Cancelling all subscribers"
        :: map (fun s => SubscriberStop s false) (subscribers app)
        ++ match fst (world 0%nat) with
           | Fulfilled =>
               Log Info "Checking for subscribers with un-processed messages"
               :: flat_map (waitRound world) (seq 0 n) ++ closing n
           | Failed => []
           end.
Proof.
  destruct (pollLoop_rounds world 5 0 eq_refl) as (n & Hn & Hbefore & Hat & Heff).
  exists n. split; [exact Hn|]. split; [exact Hbefore|]. split; [exact Hat|].
  destruct (errorShutdown app) eqn:Herr.
  - unfold effectsOf. rewrite (graceful_hard_call app Herr). cbn. apply app_nil_r.
  - rewrite (graceful_effects app world Herr).
    destruct (fst (world 0%nat)); [rewrite Heff|]; reflexivity.
Qed.

(** X4. Whatever the flags, the subscribers and the event loop, the
    coordinator sets at most five timers, each of 1000 ms: it never waits
    more than five seconds for the pushes in flight. *)
Theorem shutdown_waits_at_most_five_seconds (app : App) (world : World) :
  exists n : nat,
    (n <= 5)%nat
    /\ timers (effectsOf gracefullyHandleSubscriberShutdown app world) = repeat 1000 n.
Proof.
  destruct (graceful_effects_cases app world) as (n & Hn & _ & _ & Heff).
  rewrite Heff. destruct (errorShutdown app).
  - exists 0%nat. split; [lia|]. apply (read_stops true).
  - destruct (fst (world 0%nat)).
    + exists n. split; [exact Hn|].
      change (Log Info "Cancelling all subscribers" :: ?l)
        with ([Log Info "Cancelling all subscribers"] ++ l).
      rewrite !timers_app.
      destruct (read_stops false (subscribers app)) as (H1 & _). rewrite H1.
      change (Log Info "Checking for subscribers with un-processed messages"
              :: flat_map (waitRound world) (seq 0 n) ++ closing n)
        with ([Log Info "Checking for subscribers with un-processed messages"]
              ++ flat_map (waitRound world) (seq 0 n) ++ closing n).
      rewrite !timers_app.
      destruct (read_rounds world n 0) as (H2 & _). rewrite H2.
      destruct (read_closing n) as (H3 & _). rewrite H3.
      cbn. apply app_nil_r.
    + exists 0%nat. split; [lia|].
      change (Log Info "Cancelling all subscribers" :: ?l)
        with ([Log Info "Cancelling all subscribers"] ++ l).
      rewrite !timers_app.
      destruct (read_stops false (subscribers app)) as (H1 & _). rewrite H1.
      reflexivity.
Qed.

(** X5. On every path the coordinator calls [stop] once on each subscriber of
    [app.subscribers], in order, with [errorShutdown] as its argument; it
    never calls [app.close()]; and it closes the connection once when
    [errorShutdown] is unset and the stops are fulfilled, and not at all
    otherwise. *)
Theorem coordinator_calls (app : App) (world : World) :
  stops (effectsOf gracefullyHandleSubscriberShutdown app world)
  = map (fun s => (s, errorShutdown app)) (subscribers app)
  /\ appCloses (effectsOf gracefullyHandleSubscriberShutdown app world) = 0%nat
  /\ connectionCloses (effectsOf gracefullyHandleSubscriberShutdown app world)
     = (if errorShutdown app then 0
        else match fst (world 0%nat) with Fulfilled => 1 | Failed => 0 end)%nat.
Proof.
  destruct (graceful_effects_cases app world) as (n & _ & _ & _ & Heff).
  rewrite Heff. destruct (errorShutdown app).
  - destruct (read_stops true (subscribers app)) as (_ & H2 & H3 & H4).
    repeat split; assumption.
  - change (Log Info "Cancelling all subscribers" :: ?l)
      with ([Log Info "Cancelling all subscribers"] ++ l).
    rewrite !stops_app, !appCloses_app, !connectionCloses_app.
    destruct (read_stops false (subscribers app)) as (_ & H2 & H3 & H4).
    rewrite H2, H3, H4.
    destruct (fst (world 0%nat)).
    + change (Log Info "Checking for subscribers with un-processed messages"
              :: flat_map (waitRound world) (seq 0 n) ++ closing n)
        with ([Log Info "Checking for subscribers with un-processed messages"]
              ++ flat_map (waitRound world) (seq 0 n) ++ closing n).
      rewrite !stops_app, !appCloses_app, !connectionCloses_app.
      destruct (read_rounds world n 0) as (_ & R2 & R3 & R4). rewrite R2, R3, R4.
      destruct (read_closing n) as (_ & C2 & C3 & C4). rewrite C2, C3, C4.
      cbn. rewrite app_nil_r. repeat split.
    + cbn. rewrite app_nil_r. repeat split.
Qed.

(** X6. When [errorShutdown] is unset and the promise of a [stop(false)] is
    rejected, the coordinator throws at its first [await]: it has logged one
    line and called the stops, and it sets no timer and leaves the connection
    open. *)
Theorem rejected_stops_abort (app : App) (world : World) :
  errorShutdown app = false ->
  fst (world 0%nat) = Failed ->
  finish world 0 (gracefullyHandleSubscriberShutdown app)
  = (None,
     Log Info "Cancelling all subscribers"
     :: map (fun s => SubscriberStop s false) (subscribers app)).
Proof.
  intros Herr Hstops. unfold gracefullyHandleSubscriberShutdown.
  unfold bind at 1. cbn [modify andThen].
  unfold bind at 1. cbn [gets andThen].
  change (errorShutdown (set_pendingShutdown true app)) with (errorShutdown app).
  rewrite Herr. cbn [negb].
  unfold bind at 1. cbn [log emit andThen].
  unfold bind at 1. cbn [gets andThen].
  unfold bind at 1. rewrite forEach_stop. cbn [andThen].
  unfold bind at 1. cbn [await andThen].
  cbn [finish resumeAll List.app fst snd]. rewrite Hstops.
  cbn. rewrite !app_nil_r. reflexivity.
Qed.

Lemma rejected_stops_abort_witness :
  finish Cases.stopsRejected 0 (gracefullyHandleSubscriberShutdown Samples.app)
  = (None,
     [Log Info "Cancelling all subscribers";
      SubscriberStop (mkSubscriber "binarytest" 2) false;
      SubscriberStop (mkSubscriber "jsontest" 0) false]).
Proof.
  apply (rejected_stops_abort Samples.app Cases.stopsRejected); reflexivity.
Defined.

(** X7. On the graceful path, the stops being fulfilled, the coordinator
    gives up and closes the connection by force exactly when each of its five
    polls read a sum other than zero; it closes it in the ordinary way exactly
    when one of them read zero. *)
Theorem forced_close_iff_never_drained (app : App) (world : World) :
  errorShutdown app = false ->
  fst (world 0%nat) = Fulfilled ->
  (In (Log Warn "Maximum number of retries exceeded. Forcefully closing the connection.")
      (effectsOf gracefullyHandleSubscriberShutdown app world)
   <-> forall j, (j < 5)%nat -> reading world j <> 0)
  /\ (In (Log Info "No subscriber messages delivered via in-flight requests detected. Closing the AMQP connection.")
         (effectsOf gracefullyHandleSubscriberShutdown app world)
      <-> exists j, (j < 5)%nat /\ reading world j = 0).
Proof.
  intros Herr Hstops.
  destruct (graceful_effects_cases app world) as (n & Hn & Hbefore & Hat & Heff).
  rewrite Heff, Herr, Hstops. clear Heff.
  assert (Hnote : forall e,
             In e (Log Info "Cancelling all subscribers"
                   :: map (fun s => SubscriberStop s false) (subscribers app)
                   ++ Log Info "Checking for subscribers with un-processed messages"
                   :: flat_map (waitRound world) (seq 0 n) ++ closing n) ->
             e = Log Info "Cancelling all subscribers"
             \/ (exists s, e = SubscriberStop s false)
             \/ e = Log Info "Checking for subscribers with un-processed messages"
             \/ (exists k, e = Log Warn (stillInFlightMsg (reading world k) (S k)))
             \/ e = SetTimeout 1000
             \/ e = closeNote n
             \/ e = ConnectionClose).
  { intros e [H|H]; [left; symmetry; exact H|].
    apply in_app_or in H. destruct H as [H|[H|H]].
    - apply in_map_iff in H. destruct H as (s0 & Hs & _).
      right; left. exists s0. symmetry. exact Hs.
    - right; right; left. symmetry. exact H.
    - apply in_app_or in H. destruct H as [H|[H|[H|[]]]].
      + apply in_flat_map in H. destruct H as (k & _ & [H|[H|[]]]).
        * right; right; right; left. exists k. symmetry. exact H.
        * do 4 right. left. symmetry. exact H.
      + do 5 right. left. symmetry. exact H.
      + do 6 right. symmetry. exact H. }
  assert (Hlast : In (closeNote n)
                    (Log Info "Cancelling all subscribers"
                     :: map (fun s => SubscriberStop s false) (subscribers app)
                     ++ Log Info "Checking for subscribers with un-processed messages"
                     :: flat_map (waitRound world) (seq 0 n) ++ closing n)).
  { right. apply in_or_app. right. right. apply in_or_app. right. left. reflexivity. }
  split; split.
  - intros H. apply Hnote in H.
    destruct H as [H|[[s0 H]|[H|[[k H]|[H|[H|H]]]]]]; try discriminate H.
    unfold closeNote in H. destruct (n <? 5)%nat eqn:Hlt; [discriminate H|].
    apply Nat.ltb_ge in Hlt. intros j Hj. apply Hbefore. lia.
  - intros Hall. assert (n = 5)%nat as ->.
    { destruct (Nat.eq_dec n 5) as [|Hne]; [assumption|].
      exfalso. apply (Hall n); [lia | apply Hat; lia]. }
    exact Hlast.
  - intros H. apply Hnote in H.
    destruct H as [H|[[s0 H]|[H|[[k H]|[H|[H|H]]]]]]; try discriminate H.
    unfold closeNote in H. destruct (n <? 5)%nat eqn:Hlt; [|discriminate H].
    apply Nat.ltb_lt in Hlt. exists n. split; [exact Hlt | apply Hat; exact Hlt].
  - intros (j & Hj & Hz). assert (Hlt : (n < 5)%nat).
    { destruct (Nat.lt_ge_cases n 5) as [|Hge]; [assumption|].
      exfalso. apply (Hbefore j); [lia | exact Hz]. }
    unfold closeNote in Hlast. apply Nat.ltb_lt in Hlt. rewrite Hlt in Hlast.
    exact Hlast.
Qed.

Lemma forced_close_iff_never_drained_witness :
  In (Log Warn "Maximum number of retries exceeded. Forcefully closing the connection.")
     (effectsOf gracefullyHandleSubscriberShutdown Samples.app Samples.neverDrains)
  <-> forall j, (j < 5)%nat -> reading Samples.neverDrains j <> 0.
Proof.
  apply (forced_close_iff_never_drained Samples.app Samples.neverDrains); reflexivity.
Defined.

(** ** Calls of [app.close()] in the running server *)

Lemma pollLoop_never_closes_app (budget : nat) :
  forall (r : nat) (app : App),
    (r + budget = 5)%nat ->
    appCloses (snd (pollLoop r app)) = 0%nat
    /\ NeverClosesApp (fst (fst (pollLoop r app))).
Proof.
  induction budget as [|budget IH]; intros r app Hr; rewrite pollLoop_eq.
  - destruct (lt_dec r 5) as [Hlt|_]; [lia|].
    unfold_async. split; [reflexivity|].
    constructor. intros how app1. destruct how; cbn; split; (reflexivity || constructor).
  - destruct (lt_dec r 5) as [_|Hge]; [|lia].
    unfold_async.
    destruct (subscriberDeliveriesInFlight (subscribers app) =? 0); cbn.
    + split; [reflexivity|].
      constructor. intros how app1. destruct how; cbn; split; (reflexivity || constructor).
    + split; [reflexivity|].
      constructor. intros how app1.
      destruct (IH (S r) app1) as [Hout Hnext]; [lia|].
      destruct (pollLoop (S r) app1) as [[q a] o]. cbn in *. split; assumption.
Qed.

(** The coordinator never calls [app.close()], neither before its first
    [await] nor after. *)
Lemma graceful_never_closes_app (app : App) :
  appCloses (snd (gracefullyHandleSubscriberShutdown app)) = 0%nat
  /\ NeverClosesApp (fst (fst (gracefullyHandleSubscriberShutdown app))).
Proof.
  destruct (errorShutdown app) eqn:Herr.
  - rewrite (graceful_hard_call app Herr). cbn [fst snd]. split; [|constructor].
    apply (read_stops true).
  - assert (Hcall : exists resume,
               gracefullyHandleSubscriberShutdown app
               = (Suspended resume, set_pendingShutdown true app,
                  Log Info "Cancelling all subscribers"
                  :: map (fun s => SubscriberStop s false) (subscribers app))
               /\ NeverClosesApp (Suspended resume)).
    { unfold gracefullyHandleSubscriberShutdown.
      unfold bind at 1. cbn [modify andThen].
      unfold bind at 1. cbn [gets andThen].
      change (errorShutdown (set_pendingShutdown true app)) with (errorShutdown app).
      rewrite Herr. cbn [negb].
      unfold bind at 1. cbn [log emit andThen].
      unfold bind at 1. cbn [gets andThen].
      unfold bind at 1. rewrite forEach_stop. cbn [andThen].
      unfold bind at 1. cbn [await andThen].
      eexists. split.
      - cbn [List.app]. rewrite !app_nil_r. reflexivity.
      - constructor. intros how app1. destruct how; cbn [andThen fst snd].
        + unfold bind. cbn [log emit andThen].
          destruct (pollLoop_never_closes_app 5 0 app1 eq_refl) as [Hout Hnext].
          destruct (pollLoop 0 app1) as [[q a] o]. cbn in *. split; assumption.
        + cbn. split; [reflexivity | constructor]. }
    destruct Hcall as (resume & Hcall & Hquiet). rewrite Hcall. cbn [fst snd].
    split; [|exact Hquiet].
    change (Log Info "Cancelling all subscribers" :: ?l)
      with ([Log Info "Cancelling all subscribers"] ++ l).
    rewrite appCloses_app.
    destruct (read_stops false (subscribers app)) as (_ & _ & H3 & _).
    rewrite H3. reflexivity.
Qed.

Lemma run_cons_snd (e : Event) (events : list Event) (s : System) :
  snd (run (e :: events) s) = snd (step e s) ++ snd (run events (fst (step e s))).
Proof.
  cbn [run]. destruct (step e s) as [s1 out1]. cbn [fst snd].
  destruct (run events s1) as [s2 out2]. reflexivity.
Qed.

(** One dispatch: [app.close()] is called exactly when [errorShutdown] goes
    from unset to set; that takes a close event and [pendingShutdown] unset. *)
Lemma step_app_close (e : Event) (s : System) :
  Forall Inert (sys_suspended s) ->
  Forall NeverClosesApp (sys_suspended s) ->
  Forall NeverClosesApp (sys_suspended (fst (step e s)))
  /\ appCloses (snd (step e s))
     = (if negb (errorShutdown (sys_app s)) && errorShutdown (sys_app (fst (step e s)))
        then 1 else 0)%nat
  /\ (pendingShutdown (sys_app s) = true ->
      errorShutdown (sys_app (fst (step e s))) = errorShutdown (sys_app s))
  /\ (e <> ConnectionClosed -> (forall b, e <> ChannelClosed b) ->
      errorShutdown (sys_app (fst (step e s))) = errorShutdown (sys_app s)).
Proof.
  intros Hinert Hquiet. destruct s as [app suspended]. cbn [sys_app sys_suspended] in *.
  destruct e as [| |isConfirm| |i how|subs|pubs]; cbn [step].
  - unfold dispatch, onShutdownSignal. unfold_async.
    destruct (errorShutdown app); repeat split; auto.
  - unfold dispatch. cbn [sys_app sys_suspended].
    rewrite handleConnectionClose_cases.
    destruct (pendingShutdown app) eqn:Hp; [|destruct (errorShutdown app) eqn:He];
      cbn; try rewrite He; repeat split; auto; try discriminate; try congruence;
      destruct (errorShutdown app); reflexivity.
  - unfold dispatch. cbn [sys_app sys_suspended].
    rewrite handleChannelClose_cases.
    destruct (pendingShutdown app) eqn:Hp; [|destruct (errorShutdown app) eqn:He];
      cbn; try rewrite He; repeat split; auto; try discriminate;
      try (intros _ H; exfalso; apply (H isConfirm); reflexivity);
      destruct (errorShutdown app); reflexivity.
  - unfold dispatch, onClose. cbn [sys_app sys_suspended].
    destruct (graceful_never_closes_app app) as [Hout Hnext].
    assert (Happ : snd (fst (gracefullyHandleSubscriberShutdown app))
                   = set_pendingShutdown true app).
    { destruct (errorShutdown app) eqn:He.
      - rewrite (graceful_hard_call app He). reflexivity.
      - destruct (graceful_first_segment app He) as (resume & Hseg & _).
        rewrite Hseg. reflexivity. }
    destruct (gracefullyHandleSubscriberShutdown app) as [[p a] out].
    cbn in *. subst a. unfold appCloses in *. rewrite Hout. cbn.
    repeat split.
    + destruct p; try exact Hquiet.
      apply Forall_app; split; [exact Hquiet | constructor; [exact Hnext | constructor]].
    + destruct (errorShutdown app); reflexivity.
  - cbn [sys_app sys_suspended].
    destruct (nth_error suspended i) as [[a| |resume]|] eqn:Hnth.
    1, 2, 4: cbn; destruct (errorShutdown app); repeat split; auto.
    assert (Hin : In (Suspended resume) suspended) by (eapply nth_error_In; exact Hnth).
    assert (Hp1 : Inert (Suspended resume)) by (eapply Forall_forall; eassumption).
    assert (Hp2 : NeverClosesApp (Suspended resume)) by (eapply Forall_forall; eassumption).
    inversion Hp1 as [| |resume1 Hres1 Heq1]; subst resume1.
    inversion Hp2 as [| |resume2 Hres2 Heq2]; subst resume2.
    destruct (Hres1 how app) as [Happ _]. destruct (Hres2 how app) as [Hout Hnext].
    destruct (resume how app) as [[p1 app1] out]. cbn in *. subst app1.
    unfold appCloses in *. rewrite Hout. repeat split.
    + apply replaceNth_Forall; assumption.
    + destruct (errorShutdown app); reflexivity.
  - cbn. destruct (errorShutdown app); repeat split; auto.
  - cbn. destruct (errorShutdown app); repeat split; auto.
Qed.

Lemma run_app_close (events : list Event) :
  forall s : System,
    Forall Inert (sys_suspended s) ->
    Forall NeverClosesApp (sys_suspended s) ->
    Forall NeverClosesApp (sys_suspended (fst (run events s)))
    /\ appCloses (snd (run events s))
       = (if negb (errorShutdown (sys_app s))
             && errorShutdown (sys_app (fst (run events s)))
          then 1 else 0)%nat.
Proof.
  induction events as [|e events IH]; intros s Hinert Hquiet.
  - cbn. split; [exact Hquiet|]. destruct (errorShutdown (sys_app s)); reflexivity.
  - rewrite run_cons, run_cons_snd, appCloses_app.
    destruct (step_invariant e s Hinert) as [Hinert1 [_ Hkept1]].
    destruct (step_app_close e s Hinert Hquiet) as (Hquiet1 & Hcount1 & _).
    destruct (IH _ Hinert1 Hquiet1) as [Hquiet2 Hcount2].
    destruct (run_invariant events _ Hinert1) as [_ [_ Hkept2]].
    split; [exact Hquiet2|]. rewrite Hcount1, Hcount2.
    destruct (errorShutdown (sys_app s));
      destruct (errorShutdown (sys_app (fst (step e s))));
      destruct (errorShutdown (sys_app (fst (run events (fst (step e s))))));
      try reflexivity.
    + specialize (Hkept1 eq_refl). discriminate Hkept1.
    + specialize (Hkept2 eq_refl). discriminate Hkept2.
Qed.

(** X8. Over any sequence of dispatches of the running server, the handlers
    and hooks of the server call [app.close()] at most once between them, and
    they call it exactly when [errorShutdown] goes from unset to set. *)
Theorem app_close_at_most_once (app0 : App) (events : list Event) :
  (appCloses (snd (run events (boot app0))) <= 1)%nat
  /\ (appCloses (snd (run events (boot app0))) = 1%nat
      <-> errorShutdown app0 = false
          /\ errorShutdown (sys_app (fst (run events (boot app0)))) = true).
Proof.
  destruct (run_app_close events (boot app0) (boot_invariant app0)) as [_ Hcount];
    [constructor|].
  rewrite Hcount. cbn [boot sys_app].
  destruct (errorShutdown app0);
    destruct (errorShutdown (sys_app (fst (run events (boot app0)))));
    cbn; (split; [lia|]); split; try discriminate; try (intros [H1 H2]; discriminate);
    auto.
Qed.

Lemma run_when_pending (events : list Event) :
  forall s : System,
    Forall Inert (sys_suspended s) ->
    Forall NeverClosesApp (sys_suspended s) ->
    pendingShutdown (sys_app s) = true ->
    errorShutdown (sys_app (fst (run events s))) = errorShutdown (sys_app s)
    /\ pendingShutdown (sys_app (fst (run events s))) = true.
Proof.
  induction events as [|e events IH]; intros s Hinert Hquiet Hp.
  - cbn. split; [reflexivity | exact Hp].
  - rewrite run_cons.
    destruct (step_invariant e s Hinert) as [Hinert1 [Hkept1 _]].
    destruct (step_app_close e s Hinert Hquiet) as (Hquiet1 & _ & Hfrozen & _).
    destruct (IH _ Hinert1 Hquiet1 (Hkept1 Hp)) as [He2 Hp2].
    split; [rewrite He2; apply Hfrozen; exact Hp | exact Hp2].
Qed.

(** X9. Once [pendingShutdown] is set, whether by the signal handler or by
    the coordinator, nothing that is dispatched afterwards changes
    [errorShutdown] or calls [app.close()], and [pendingShutdown] stays
    set. *)
Theorem pending_freezes_error (app0 : App) (before after : list Event) :
  let s := fst (run before (boot app0)) in
  pendingShutdown (sys_app s) = true ->
  errorShutdown (sys_app (fst (run after s))) = errorShutdown (sys_app s)
  /\ pendingShutdown (sys_app (fst (run after s))) = true
  /\ appCloses (snd (run after s)) = 0%nat.
Proof.
  intros s Hp.
  destruct (run_invariant before (boot app0) (boot_invariant app0)) as [Hinert _].
  destruct (run_app_close before (boot app0) (boot_invariant app0)) as [Hquiet _];
    [constructor|].
  fold s in Hinert, Hquiet.
  destruct (run_when_pending after s Hinert Hquiet Hp) as [He Hp2].
  destruct (run_app_close after s Hinert Hquiet) as [_ Hcount].
  split; [exact He|]. split; [exact Hp2|].
  rewrite Hcount, He. destruct (errorShutdown (sys_app s)); reflexivity.
Qed.

(** A signal first: the channel and the connection that are lost afterwards
    do not start an error shutdown. *)
Lemma pending_freezes_error_witness :
  errorShutdown
    (sys_app (fst (run [ChannelClosed false; CloseHook; ConnectionClosed]
                     (fst (run [ShutdownSignal] (boot Samples.built))))))
  = false
  /\ appCloses
       (snd (run [ChannelClosed false; CloseHook; ConnectionClosed]
               (fst (run [ShutdownSignal] (boot Samples.built))))) = 0%nat.
Proof.
  destruct (pending_freezes_error Samples.built [ShutdownSignal]
              [ChannelClosed false; CloseHook; ConnectionClosed] eq_refl)
    as (He & _ & Hcount).
  split; [exact He | exact Hcount].
Defined.

Lemma run_without_close_events (events : list Event) :
  Forall (fun e => e <> ConnectionClosed /\ forall b, e <> ChannelClosed b) events ->
  forall s : System,
    Forall Inert (sys_suspended s) ->
    Forall NeverClosesApp (sys_suspended s) ->
    errorShutdown (sys_app (fst (run events s))) = errorShutdown (sys_app s).
Proof.
  induction 1 as [|e events [Hconn Hchan] _ IH]; intros s Hinert Hquiet.
  - reflexivity.
  - rewrite run_cons.
    destruct (step_invariant e s Hinert) as [Hinert1 _].
    destruct (step_app_close e s Hinert Hquiet) as (Hquiet1 & _ & _ & Hsame).
    rewrite (IH _ Hinert1 Hquiet1). apply Hsame; assumption.
Qed.

(** X10. Only the close of the connection or of a channel sets
    [errorShutdown]: a run of the server without such an event, whatever
    signals, close hooks, resumptions and subscriber or publisher activity
    it holds, leaves [errorShutdown] as it was and never calls
    [app.close()]. *)
Theorem only_close_events_flag_error (app0 : App) (events : list Event) :
  Forall (fun e => e <> ConnectionClosed /\ forall b, e <> ChannelClosed b) events ->
  errorShutdown (sys_app (fst (run events (boot app0)))) = errorShutdown app0
  /\ appCloses (snd (run events (boot app0))) = 0%nat.
Proof.
  intros Hevents.
  assert (Hquiet : Forall NeverClosesApp (sys_suspended (boot app0))) by constructor.
  pose proof (run_without_close_events events Hevents (boot app0)
                (boot_invariant app0) Hquiet) as He.
  destruct (run_app_close events (boot app0) (boot_invariant app0) Hquiet) as [_ Hcount].
  split; [exact He|]. rewrite Hcount, He. cbn [boot sys_app].
  destruct (errorShutdown app0); reflexivity.
Qed.

Lemma only_close_events_flag_error_witness :
  errorShutdown (sys_app (fst (run Samples.signalled (boot Samples.built)))) = false
  /\ appCloses (snd (run Samples.signalled (boot Samples.built))) = 0%nat.
Proof.
  apply (only_close_events_flag_error Samples.built Samples.signalled).
  repeat constructor; try discriminate; intros b; discriminate.
Defined.

(** ** Start-up *)

Import Startup.

Section AwaitEach.

Variable A : Type.
Variable call : A -> ReadyCall.
Variable settles : nat -> Settled.

Lemma awaitEach_all (l : list A) :
  forall i : nat,
    (forall j, (j < List.length l)%nat -> settles (i + j) = Fulfilled) ->
    awaitEach call settles i l = (map call l, Fulfilled).
Proof.
  induction l as [|x l IH]; intros i Hall; [reflexivity|].
  cbn [awaitEach map].
  pose proof (Hall 0%nat ltac:(cbn; lia)) as H0. rewrite Nat.add_0_r in H0. rewrite H0.
  rewrite IH; [reflexivity|].
  intros j Hj. replace (S i + j)%nat with (i + S j)%nat by lia.
  apply Hall. cbn. lia.
Qed.

Lemma awaitEach_fulfilled (l : list A) :
  forall i : nat,
    snd (awaitEach call settles i l) = Fulfilled ->
    forall j, (j < List.length l)%nat -> settles (i + j) = Fulfilled.
Proof.
  induction l as [|x l IH]; intros i Hok j Hj; [cbn in Hj; lia|].
  cbn [awaitEach] in Hok.
  destruct (settles i) eqn:Hi; [|discriminate Hok].
  destruct (awaitEach call settles (S i) l) as [calls result] eqn:Hrest.
  cbn [snd] in Hok. destruct j as [|j].
  - rewrite Nat.add_0_r. exact Hi.
  - replace (i + S j)%nat with (S i + j)%nat by lia.
    apply IH; [rewrite Hrest; exact Hok | cbn in Hj; lia].
Qed.

Lemma awaitEach_first_failure (l : list A) :
  forall i k : nat,
    (k < List.length l)%nat ->
    (forall j, (j < k)%nat -> settles (i + j) = Fulfilled) ->
    settles (i + k) = Failed ->
    awaitEach call settles i l = (map call (firstn (S k) l), Failed).
Proof.
  induction l as [|x l IH]; intros i k Hk Hbefore Hfail; [cbn in Hk; lia|].
  cbn [awaitEach]. destruct k as [|k].
  - rewrite Nat.add_0_r in Hfail. rewrite Hfail. reflexivity.
  - pose proof (Hbefore 0%nat ltac:(lia)) as H0. rewrite Nat.add_0_r in H0. rewrite H0.
    rewrite (IH (S i) k).
    + reflexivity.
    + cbn in Hk. lia.
    + intros j Hj. replace (S i + j)%nat with (i + S j)%nat by lia. apply Hbefore. lia.
    + replace (S i + k)%nat with (i + S k)%nat by lia. exact Hfail.
Qed.

End AwaitEach.

(** X11. The [onReady] hook is fulfilled exactly when every queue assertion
    and every start is fulfilled; it has then registered the three close
    listeners, asserted the queue of every publisher and started every
    subscriber, in that order. *)
Theorem ready_fulfilled_iff (app : App) (asserted started : nat -> Settled) :
  (snd (onReady app asserted started) = Fulfilled
   <-> (forall i, (i < List.length (publishers app))%nat -> asserted i = Fulfilled)
       /\ (forall i, (i < List.length (subscribers app))%nat -> started i = Fulfilled))
  /\ (snd (onReady app asserted started) = Fulfilled ->
      fst (onReady app asserted started)
      = [OnConnectionClose; OnConfirmChannelClose; OnChannelClose]
        ++ map AssertQueue (publishers app) ++ map Start (subscribers app)).
Proof.
  assert (Hif : snd (onReady app asserted started) = Fulfilled ->
                (forall i, (i < List.length (publishers app))%nat -> asserted i = Fulfilled)
                /\ (forall i, (i < List.length (subscribers app))%nat -> started i = Fulfilled)).
  { unfold onReady. intros Hok.
    pose proof (awaitEach_fulfilled Publisher AssertQueue asserted (publishers app) 0) as H1.
    pose proof (awaitEach_fulfilled Subscriber Start started (subscribers app) 0) as H2.
    destruct (awaitEach AssertQueue asserted 0 (publishers app)) as [calls1 [|]];
      [|discriminate Hok].
    destruct (awaitEach Start started 0 (subscribers app)) as [calls2 result].
    cbn [snd] in *. split; [apply H1; reflexivity | apply H2; exact Hok]. }
  assert (Hthen : (forall i, (i < List.length (publishers app))%nat -> asserted i = Fulfilled)
                  /\ (forall i, (i < List.length (subscribers app))%nat -> started i = Fulfilled) ->
                  onReady app asserted started
                  = ([OnConnectionClose; OnConfirmChannelClose; OnChannelClose]
                     ++ map AssertQueue (publishers app) ++ map Start (subscribers app),
                     Fulfilled)).
  { intros [H1 H2]. unfold onReady.
    rewrite (awaitEach_all Publisher AssertQueue asserted (publishers app) 0 H1).
    rewrite (awaitEach_all Subscriber Start started (subscribers app) 0 H2).
    reflexivity. }
  split; [split|].
  - exact Hif.
  - intros H. rewrite (Hthen H). reflexivity.
  - intros H. rewrite (Hthen (Hif H)). reflexivity.
Qed.

(** X12. When a queue assertion is rejected, the hook is rejected; the
    publishers after that one are not asserted and no subscriber is
    started. *)
Theorem failed_assertion_stops_startup
  (app : App) (asserted started : nat -> Settled) (k : nat) :
  (k < List.length (publishers app))%nat ->
  (forall j, (j < k)%nat -> asserted j = Fulfilled) ->
  asserted k = Failed ->
  onReady app asserted started
  = ([OnConnectionClose; OnConfirmChannelClose; OnChannelClose]
     ++ map AssertQueue (firstn (S k) (publishers app)),
     Failed).
Proof.
  intros Hk Hbefore Hfail. unfold onReady.
  rewrite (awaitEach_first_failure Publisher AssertQueue asserted (publishers app) 0 k
             Hk Hbefore Hfail).
  reflexivity.
Qed.

Lemma failed_assertion_stops_startup_witness :
  onReady Cases.ready Cases.secondFails Cases.allFine
  = ([OnConnectionClose; OnConfirmChannelClose; OnChannelClose;
      AssertQueue Samples.busyPublisher;
      AssertQueue (mkPublisher "binaryq" ConfirmChannel BinaryMessageParser [] 0)],
     Failed).
Proof.
  apply (failed_assertion_stops_startup Cases.ready Cases.secondFails Cases.allFine 1).
  - cbn. lia.
  - intros j Hj. assert (j = 0)%nat as -> by lia. reflexivity.
  - reflexivity.
Defined.

(** X13. A subscriber is started only after the queue of every publisher
    has been asserted with success; when a start is rejected the hook is
    rejected and the subscribers after that one are not started. *)
Theorem starts_follow_assertions
  (app : App) (asserted started : nat -> Settled) (x : Subscriber) :
  In (Start x) (fst (onReady app asserted started)) ->
  (forall i, (i < List.length (publishers app))%nat -> asserted i = Fulfilled)
  /\ (forall k,
         (k < List.length (subscribers app))%nat ->
         (forall j, (j < k)%nat -> started j = Fulfilled) ->
         started k = Failed ->
         onReady app asserted started
         = ([OnConnectionClose; OnConfirmChannelClose; OnChannelClose]
            ++ map AssertQueue (publishers app)
            ++ map Start (firstn (S k) (subscribers app)),
            Failed)).
Proof.
  intros Hin.
  assert (Hall : forall i, (i < List.length (publishers app))%nat -> asserted i = Fulfilled).
  { pose proof (awaitEach_fulfilled Publisher AssertQueue asserted (publishers app) 0) as H1.
    unfold onReady in Hin.
    destruct (awaitEach AssertQueue asserted 0 (publishers app)) as [calls1 [|]] eqn:Hcalls.
    - apply H1. reflexivity.
    - exfalso. cbn [fst] in Hin.
      assert (Hpre : exists n, calls1 = map AssertQueue (firstn n (publishers app))).
      { clear Hin H1. revert calls1 Hcalls. generalize 0%nat.
        induction (publishers app) as [|p l IH]; intros i calls1 Hcalls.
        - cbn in Hcalls. discriminate Hcalls.
        - cbn [awaitEach] in Hcalls. destruct (asserted i).
          + destruct (awaitEach AssertQueue asserted (S i) l) as [calls r] eqn:Hrest.
            injection Hcalls as <- ->.
            destruct (IH (S i) calls Hrest) as [n Hn].
            exists (S n). cbn. rewrite Hn. reflexivity.
          + injection Hcalls as <-. exists 1%nat. reflexivity. }
      destruct Hpre as [n ->].
      destruct Hin as [H|[H|[H|H]]]; try discriminate H.
      apply in_map_iff in H. destruct H as (p & Hp & _). discriminate Hp. }
  split; [exact Hall|].
  intros k Hk Hbefore Hfail. unfold onReady.
  rewrite (awaitEach_all Publisher AssertQueue asserted (publishers app) 0 Hall).
  rewrite (awaitEach_first_failure Subscriber Start started (subscribers app) 0 k
             Hk Hbefore Hfail).
  reflexivity.
Qed.

Lemma starts_follow_assertions_witness :
  In (Start (mkSubscriber "jsontest" 0))
     (fst (onReady Cases.ready Cases.allFine Cases.allFine))
  /\ snd (onReady Cases.ready Cases.allFine Cases.allFine) = Fulfilled
  /\ Cases.allFine 2%nat = Fulfilled.
Proof.
  assert (Hstarted : In (Start (mkSubscriber "jsontest" 0))
                        (fst (onReady Cases.ready Cases.allFine Cases.allFine))).
  { cbn. do 7 right. left. reflexivity. }
  split; [exact Hstarted|]. split; [reflexivity|].
  destruct (starts_follow_assertions Cases.ready Cases.allFine Cases.allFine
              (mkSubscriber "jsontest" 0) Hstarted) as [Hasserted _].
  apply Hasserted. cbn. lia.
Defined.

(** ** Registering the publishers *)

(** X14. [registerPublishers] keeps the publishers and routes that are there,
    appends one publisher and one route per configuration, in the order of
    the configurations, each route at [/publish/<queueName>], and changes
    nothing else of the app; registering two batches one after the other is
    registering them at once. *)
Theorem registerPublishers_appends
  (jsonParse : option Schema -> list Byte.byte -> option (list Byte.byte))
  (configs more : list PublisherConfig) (app : App) (routes : list Route) :
  let result := registerPublishers jsonParse configs (app, routes) in
  publishers (fst result)
  = publishers app ++ map (fun cfg => buildPublisher cfg (amqp app)) configs
  /\ map route_path (snd result)
     = map route_path routes
       ++ map (fun cfg => ("/publish/" ++ cfg_queueName cfg)%string) configs
  /\ amqp (fst result) = amqp app
  /\ subscribers (fst result) = subscribers app
  /\ identities (fst result) = identities app
  /\ pendingShutdown (fst result) = pendingShutdown app
  /\ errorShutdown (fst result) = errorShutdown app
  /\ registerPublishers jsonParse (configs ++ more) (app, routes)
     = registerPublishers jsonParse more result.
Proof.
  cbn zeta. rewrite registerPublishers_fold. cbn [fst snd].
  repeat split.
  - rewrite map_app, map_map. reflexivity.
  - unfold registerPublishers. rewrite fold_left_app.
    fold (registerPublishers jsonParse configs (app, routes)).
    rewrite registerPublishers_fold. reflexivity.
Qed.

Lemma publish_path_injective (a b : string) :
  ("/publish/" ++ a)%string = ("/publish/" ++ b)%string -> a = b.
Proof. cbn. intros H. injection H as H. exact H. Qed.

(** X15. The routes that [registerPublishers] adds have pairwise distinct
    paths exactly when the queue names of the configurations are pairwise
    distinct: two publishers on one queue name ask for the same route. *)
Theorem publish_paths_distinct_iff
  (jsonParse : option Schema -> list Byte.byte -> option (list Byte.byte))
  (configs : list PublisherConfig) (app : App) :
  NoDup (map route_path (snd (registerPublishers jsonParse configs (app, []))))
  <-> NoDup (map cfg_queueName configs).
Proof.
  rewrite registerPublishers_fold. cbn [snd List.app]. rewrite map_map. cbn [route_path].
  assert (Hpaths : map (fun cfg => ("/publish/" ++ queueName (buildPublisher cfg (amqp app)))%string)
                       configs
                   = map (String.append "/publish/") (map cfg_queueName configs)).
  { rewrite map_map. reflexivity. }
  rewrite Hpaths. split.
  - apply NoDup_map_inv.
  - apply NoDup_map_NoDup_ForallPairs. intros a b _ _. apply publish_path_injective.
Qed.

(** ** The two close handlers *)

(** X16. The two close handlers return at once and change the app in the
    same way; the handler of a channel closes the connection exactly when it
    calls [app.close()], the handler of the connection never closes it; and a
    handler that runs again on the app that either of them left changes
    nothing and calls neither. *)
Theorem close_handlers_agree (isConfirmChannel again : bool) (app : App) :
  let left := snd (fst (handleChannelClose isConfirmChannel app)) in
  fst (fst (handleChannelClose isConfirmChannel app)) = Returned tt
  /\ fst (fst (handleConnectionClose app)) = Returned tt
  /\ snd (fst (handleConnectionClose app)) = left
  /\ appCloses (snd (handleChannelClose isConfirmChannel app))
     = appCloses (snd (handleConnectionClose app))
  /\ connectionCloses (snd (handleChannelClose isConfirmChannel app))
     = appCloses (snd (handleChannelClose isConfirmChannel app))
  /\ connectionCloses (snd (handleConnectionClose app)) = 0%nat
  /\ snd (fst (handleChannelClose again left)) = left
  /\ snd (fst (handleConnectionClose left)) = left
  /\ appCloses (snd (handleChannelClose again left)) = 0%nat
  /\ appCloses (snd (handleConnectionClose left)) = 0%nat
  /\ connectionCloses (snd (handleChannelClose again left)) = 0%nat.
Proof.
  cbn zeta. rewrite !handleConnectionClose_cases, !handleChannelClose_cases.
  destruct (pendingShutdown app) eqn:Hp; [|destruct (errorShutdown app) eqn:He];
    cbn [fst snd]; rewrite ?handleConnectionClose_cases, ?handleChannelClose_cases;
    cbn [pendingShutdown errorShutdown set_errorShutdown]; rewrite ?Hp, ?He;
    repeat split.
Qed.

(** ** Closes of the connection in the running server *)

Lemma closesWithin_weaken (m n : nat) (p : Proc unit) :
  ClosesWithin m p -> (m <= n)%nat -> ClosesWithin n p.
Proof.
  intros Hp Hle. destruct Hp as [m a|m|m resume Hres]; constructor.
  intros how app. destruct (Hres how app) as (m' & Hm' & Hnext).
  exists m'. split; [lia | exact Hnext].
Qed.

Lemma pollLoop_closes_within (budget : nat) :
  forall (r : nat) (app : App),
    (r + budget = 5)%nat ->
    exists m : nat,
      (connectionCloses (snd (pollLoop r app)) + m <= 1)%nat
      /\ ClosesWithin m (fst (fst (pollLoop r app))).
Proof.
  induction budget as [|budget IH]; intros r app Hr; rewrite pollLoop_eq.
  - destruct (lt_dec r 5) as [Hlt|_]; [lia|].
    unfold_async. exists 0%nat. split; [reflexivity|].
    constructor. intros how app1. exists 0%nat.
    destruct how; cbn; split; (reflexivity || constructor).
  - destruct (lt_dec r 5) as [_|Hge]; [|lia].
    unfold_async.
    destruct (subscriberDeliveriesInFlight (subscribers app) =? 0); cbn.
    + exists 0%nat. split; [reflexivity|].
      constructor. intros how app1. exists 0%nat.
      destruct how; cbn; split; (reflexivity || constructor).
    + exists 1%nat. split; [reflexivity|].
      constructor. intros how app1.
      destruct (IH (S r) app1) as (m & Hm & Hnext); [lia|].
      exists m. destruct (pollLoop (S r) app1) as [[q a] o]. cbn in *.
      split; assumption.
Qed.

(** The coordinator closes the connection at most once, and not before its
    first [await]. *)
Lemma graceful_closes_within (app : App) :
  connectionCloses (snd (gracefullyHandleSubscriberShutdown app)) = 0%nat
  /\ ClosesWithin 1 (fst (fst (gracefullyHandleSubscriberShutdown app))).
Proof.
  destruct (errorShutdown app) eqn:Herr.
  - rewrite (graceful_hard_call app Herr). cbn [fst snd]. split; [|constructor].
    apply (read_stops true).
  - assert (Hcall : exists resume,
               gracefullyHandleSubscriberShutdown app
               = (Suspended resume, set_pendingShutdown true app,
                  Log Info "Cancelling all subscribers"
                  :: map (fun s => SubscriberStop s false) (subscribers app))
               /\ ClosesWithin 1 (Suspended resume)).
    { unfold gracefullyHandleSubscriberShutdown.
      unfold bind at 1. cbn [modify andThen].
      unfold bind at 1. cbn [gets andThen].
      change (errorShutdown (set_pendingShutdown true app)) with (errorShutdown app).
      rewrite Herr. cbn [negb].
      unfold bind at 1. cbn [log emit andThen].
      unfold bind at 1. cbn [gets andThen].
      unfold bind at 1. rewrite forEach_stop. cbn [andThen].
      unfold bind at 1. cbn [await andThen].
      eexists. split.
      - cbn [List.app]. rewrite !app_nil_r. reflexivity.
      - constructor. intros how app1. destruct how; cbn [andThen fst snd].
        + unfold bind. cbn [log emit andThen].
          destruct (pollLoop_closes_within 5 0 app1 eq_refl) as (m & Hm & Hnext).
          exists m. destruct (pollLoop 0 app1) as [[q a] o]. cbn in *.
          split; assumption.
        + exists 0%nat. cbn. split; [lia | constructor]. }
    destruct Hcall as (resume & Hcall & Hwithin). rewrite Hcall. cbn [fst snd].
    split; [|exact Hwithin].
    change (Log Info "Cancelling all subscribers" :: ?l)
      with ([Log Info "Cancelling all subscribers"] ++ l).
    rewrite connectionCloses_app.
    destruct (read_stops false (subscribers app)) as (_ & _ & _ & H4).
    rewrite H4. reflexivity.
Qed.

(** Resuming one of the suspended calls: what it closes comes off its own
    bound. *)
Lemma budget_replace (bounds : list nat) (l : list (Proc unit)) :
  Forall2 ClosesWithin bounds l ->
  forall (i : nat) (p : Proc unit),
    nth_error l i = Some p ->
    exists m : nat,
      ClosesWithin m p
      /\ forall (m' : nat) (p' : Proc unit),
           ClosesWithin m' p' ->
           Forall2 ClosesWithin (replaceNth i m' bounds) (replaceNth i p' l)
           /\ (list_sum (replaceNth i m' bounds) + m = list_sum bounds + m')%nat.
Proof.
  induction 1 as [|b q bounds l Hq Hrest IH]; intros i p Hnth.
  - destruct i; discriminate Hnth.
  - destruct i as [|i]; cbn in Hnth.
    + injection Hnth as ->. exists b. split; [exact Hq|].
      intros m' p' Hp'. cbn [replaceNth].
      split; [constructor; assumption | unfold list_sum; cbn; lia].
    + destruct (IH i p Hnth) as (m & Hm & Hrep). exists m. split; [exact Hm|].
      intros m' p' Hp'. destruct (Hrep m' p' Hp') as [Hall Hsum].
      cbn [replaceNth].
      split; [constructor; assumption | unfold list_sum in *; cbn; lia].
Qed.

#[local] Arguments Nat.max : simpl never.

(** One dispatch: what it closes, and what can still be closed after it, fit
    in what could be closed before it. *)
Lemma step_closes (e : Event) (s : System) (k hooks : nat) :
  Forall Inert (sys_suspended s) ->
  withinBudget k (sys_suspended s) ->
  (closeHooks [e] <= hooks)%nat ->
  exists k' : nat,
    withinBudget k' (sys_suspended (fst (step e s)))
    /\ (connectionCloses (snd (step e s)) + k'
        + closesToCome (sys_app (fst (step e s))) (hooks - closeHooks [e])
        <= k + closesToCome (sys_app s) hooks)%nat.
Proof.
  intros Hinert Hbudget Hhooks. destruct s as [app suspended].
  cbn [sys_app sys_suspended] in *. unfold closesToCome.
  destruct e as [| |isConfirm| |i how|subs|pubs]; cbn [step].
  - exists k. unfold dispatch, onShutdownSignal. unfold_async.
    split; [exact Hbudget|].
    destruct (errorShutdown app); [lia|]. destruct (pendingShutdown app); lia.
  - exists k. unfold dispatch. cbn [sys_app sys_suspended].
    rewrite handleConnectionClose_cases.
    destruct (pendingShutdown app) eqn:Hp; [|destruct (errorShutdown app) eqn:He];
      cbn; rewrite ?Hp, ?He; (split; [exact Hbudget|]);
      try (destruct (errorShutdown app)); lia.
  - exists k. unfold dispatch. cbn [sys_app sys_suspended].
    rewrite handleChannelClose_cases.
    destruct (pendingShutdown app) eqn:Hp; [|destruct (errorShutdown app) eqn:He];
      cbn; rewrite ?Hp, ?He; (split; [exact Hbudget|]);
      try (destruct (errorShutdown app)); lia.
  - unfold dispatch, onClose. cbn [sys_app sys_suspended].
    destruct (graceful_closes_within app) as [Hout Hwithin].
    assert (Hcall : (errorShutdown app = true
                     /\ fst (fst (gracefullyHandleSubscriberShutdown app)) = Returned tt)
                    \/ (errorShutdown app = false
                        /\ exists resume,
                             fst (fst (gracefullyHandleSubscriberShutdown app))
                             = Suspended resume)).
    { destruct (errorShutdown app) eqn:He.
      - left. rewrite (graceful_hard_call app He). split; reflexivity.
      - right. destruct (graceful_first_segment app He) as (resume & Hseg & _).
        rewrite Hseg. split; [reflexivity | exists resume; reflexivity]. }
    assert (Happ : snd (fst (gracefullyHandleSubscriberShutdown app))
                   = set_pendingShutdown true app).
    { destruct (errorShutdown app) eqn:He.
      - rewrite (graceful_hard_call app He). reflexivity.
      - destruct (graceful_first_segment app He) as (resume & Hseg & _).
        rewrite Hseg. reflexivity. }
    destruct (gracefullyHandleSubscriberShutdown app) as [[p a] out].
    cbn [fst snd sys_app sys_suspended] in *. subst a.
    cbn [errorShutdown pendingShutdown set_pendingShutdown]. rewrite Hout.
    destruct Hcall as [[He ->]|[He [resume ->]]]; rewrite He.
    + exists k. split; [exact Hbudget | lia].
    + exists (k + 1)%nat. split.
      * destruct Hbudget as (bounds & Hall & Hsum).
        exists (bounds ++ [1%nat]). split.
        -- apply Forall2_app; [exact Hall | constructor; [exact Hwithin | constructor]].
        -- rewrite list_sum_app. cbn. lia.
      * cbn in Hhooks. destruct (pendingShutdown app); cbn; lia.
  - cbn [sys_app sys_suspended].
    destruct (nth_error suspended i) as [[a| |resume]|] eqn:Hnth.
    1, 2, 4: exists k; cbn; (split; [exact Hbudget|]);
      destruct (errorShutdown app); [lia|]; destruct (pendingShutdown app); lia.
    assert (Hin : In (Suspended resume) suspended) by (eapply nth_error_In; exact Hnth).
    assert (Hp1 : Inert (Suspended resume)) by (eapply Forall_forall; eassumption).
    inversion Hp1 as [| |resume1 Hres1 Heq1]; subst resume1.
    destruct (Hres1 how app) as [Happ _].
    destruct Hbudget as (bounds & Hall & Hsum).
    destruct (budget_replace bounds suspended Hall i _ Hnth) as (m & Hm & Hrep).
    inversion Hm as [| |m0 resume2 Hres2 Heq2 Heq3]; subst m0 resume2.
    destruct (Hres2 how app) as (m' & Hm' & Hnext).
    destruct (resume how app) as [[p1 app1] out]. cbn [fst snd] in *. subst app1.
    destruct (Hrep m' p1 Hnext) as [Hall' Hsum'].
    exists (list_sum (replaceNth i m' bounds)). split.
    + exists (replaceNth i m' bounds). split; [exact Hall' | lia].
    + cbn [sys_app]. change (closeHooks [Settle i how]) with 0%nat.
      rewrite Nat.sub_0_r.
      destruct (errorShutdown app); [lia|]. destruct (pendingShutdown app); lia.
  - exists k. cbn. split; [exact Hbudget|].
    destruct (errorShutdown app); [lia|]. destruct (pendingShutdown app); lia.
  - exists k. cbn. split; [exact Hbudget|].
    destruct (errorShutdown app); [lia|]. destruct (pendingShutdown app); lia.
Qed.

Lemma closeHooks_cons (e : Event) (events : list Event) :
  closeHooks (e :: events) = (closeHooks [e] + closeHooks events)%nat.
Proof.
  unfold closeHooks. cbn [flat_map]. rewrite app_nil_r, length_app. reflexivity.
Qed.

Lemma run_closes (events : list Event) :
  forall (s : System) (k : nat),
    Forall Inert (sys_suspended s) ->
    withinBudget k (sys_suspended s) ->
    (connectionCloses (snd (run events s))
     <= k + closesToCome (sys_app s) (closeHooks events))%nat.
Proof.
  induction events as [|e events IH]; intros s k Hinert Hbudget.
  - cbn. lia.
  - rewrite run_cons_snd, connectionCloses_app, closeHooks_cons.
    destruct (step_invariant e s Hinert) as [Hinert1 _].
    destruct (step_closes e s k (closeHooks [e] + closeHooks events) Hinert Hbudget)
      as (k' & Hbudget' & Hle); [lia|].
    replace (closeHooks [e] + closeHooks events - closeHooks [e])%nat
      with (closeHooks events) in Hle by lia.
    pose proof (IH _ k' Hinert1 Hbudget') as Hrest. lia.
Qed.

(** X17. In the running server the handlers and hooks close the connection
    at most once for each run of the close hook, and at most once in all when
    the hook runs once or not at all: the handler of a channel and the
    coordinator never both close it. *)
Theorem connection_closed_at_most_once (app0 : App) (events : list Event) :
  (connectionCloses (snd (run events (boot app0))) <= Nat.max 1 (closeHooks events))%nat
  /\ ((closeHooks events <= 1)%nat ->
      (connectionCloses (snd (run events (boot app0))) <= 1)%nat).
Proof.
  assert (Hbudget : withinBudget 0 (sys_suspended (boot app0))).
  { exists []. split; [constructor | cbn; lia]. }
  pose proof (run_closes events (boot app0) 0 (boot_invariant app0) Hbudget) as H.
  unfold closesToCome in H. cbn [boot sys_app] in H.
  assert (Hmax : (connectionCloses (snd (run events (boot app0)))
                  <= Nat.max 1 (closeHooks events))%nat).
  { destruct (errorShutdown app0); [lia|]. destruct (pendingShutdown app0); lia. }
  split; [exact Hmax | lia].
Qed.
